(** * The HTTP layer of the crawler (src/http.ts)

    A shallow embedding of [class Http] and of the response object it
    builds: the header merge of [Http.request], the retry loop around the
    network call, the stream handlers of [Http.downloadResource], the
    cancel token, and the callbacks [follow], [retry], [download] and
    [downloadInQueue] attached by [createResponse].

    JavaScript objects used as string-keyed maps are [gmap string _];
    object spread is a right-biased union.  Asynchronous code is written
    in a state-and-exception monad over a [World] that records, in a
    trace, every resolver call, network call and log line in the order
    the source performs them. *)

From stdpp Require Import gmap strings list fin_maps pretty.

Set Default Proof Using "Type".

(** ** JavaScript values used by the module *)

(** A value of [IncomingHttpHeaders]: [string | string[] | undefined]. *)
Inductive HeaderValue :=
| HUndefined
| HStr (s : string)
| HArr (l : list string).

Abbreviation HTTPHeaders := (gmap string HeaderValue).

(** [{ ...base, ...over }]: every own key of [over] is copied on top of
    [base]. *)
Definition spread {V} (base over : gmap string V) : gmap string V :=
  over ∪ base.

(** [x || {}] for an optional object. *)
Definition or_empty {V} (o : option (gmap string V)) : gmap string V :=
  match o with
  | Some m => m
  | None => ∅
  end.

(** Truthiness of an optional string: [undefined] and [""] are falsy. *)
Definition truthy_string (o : option string) : bool :=
  match o with
  | Some s => negb (String.eqb s "")
  | None => false
  end.

(** [m || d] for an optional string. *)
Definition or_string (m : option string) (d : string) : string :=
  match m with
  | Some s => if String.eqb s "" then d else s
  | None => d
  end.

Abbreviation Method := string.

(** [AxiosProxyConfig] and [AxiosBasicCredentials]. *)
Record ProxyConfig := { host : string; port : N }.
Record Auth := { username : string; password : string }.

(** A value stored in a [download.DownloadOptions] object. *)
Inductive OptionValue :=
| OUndefined
| OStr (s : string)
| OBool (b : bool)
| ONum (n : N)
| OHeaders (h : HTTPHeaders).

Abbreviation DownloadOptions := (gmap string OptionValue).

(** [Body]: the payload of a request, or the [DownloadBody] of a download
    task.  Payloads are opaque to this module. *)
Inductive Body :=
| BUndefined
| BData (data : string)
| BDownload (filepath : string) (options : option DownloadOptions).

(** [UrlCustomer] and [Url = string | UrlCustomer]. *)
Record UrlCustomer := {
  uc_url : string;
  uc_method : option Method;
  uc_body : Body;
  uc_headers : option HTTPHeaders
}.

Inductive Url :=
| UrlString (s : string)
| UrlObject (u : UrlCustomer).

(** Truthiness of the argument of [follow]: an object is truthy, a string
    is truthy unless empty; [None] is a missing ([undefined]) argument. *)
Definition truthy_url (u : option Url) : bool :=
  match u with
  | None => false
  | Some (UrlString s) => negb (String.eqb s "")
  | Some (UrlObject _) => true
  end.

(** The request config handed to axios (lines 122-137) and found again in
    [response.config].  The cancel token is the one token of the [Http]
    instance, kept in the [World]. *)
Record AxiosRequestConfig := {
  cfg_url : string;
  cfg_method : option Method;
  cfg_proxy : option ProxyConfig;
  cfg_timeout : N;
  cfg_data : Body;
  cfg_auth : option Auth;
  cfg_headers : HTTPHeaders
}.

Record AxiosResponse := {
  res_status : N;
  res_data : string;
  res_config : AxiosRequestConfig
}.

(** ** Tasks and the scheduler *)

Inductive TaskType := TRequest | TDownload.

(** Modelled from the spec: [Task] is declared in scheduler.ts, which is
    not part of the sources at hand.  The fields are the five constructor
    arguments [new Task(type, method, url, body, headers)] in the order
    http.ts passes them ("kind, method, url, body, headers: request
    shape"). *)
Record Task := {
  task_type : TaskType;
  task_method : option Method;
  task_url : string;
  task_body : Body;
  task_headers : option HTTPHeaders
}.

Module Scheduler.
(** Modelled from the spec: [Scheduler.push] is declared in
    scheduler.ts, which is not part of the sources at hand.  "push(task)
    appends to the tail"; the queue is an "ordered sequence of Task,
    FIFO" and its size is the pending count. *)
Definition push (task : Task) (queue : list Task) : list Task :=
  queue ++ [task].

Definition size (queue : list Task) : nat := length queue.
End Scheduler.

(** ** Errors, events and the world *)

(** What a promise of this module can reject with. *)
Inductive JsError :=
| Error (msg : string)        (* an ordinary [Error]: axios, stream, fs *)
| TimeoutError                (* p-timeout's [TimeoutError], an [Error] *)
| TypeError (msg : string)    (* a [TypeError] *)
| Cancel (msg : string).      (* axios' [Cancel] object: not an [Error] *)

Definition message (e : JsError) : string :=
  match e with
  | Error m => m
  | TimeoutError => "Promise timed out"
  | TypeError m => m
  | Cancel m => m
  end.

Inductive Result (A : Type) :=
| Ok (a : A)
| Throw (e : JsError).
Arguments Ok {A} a.
Arguments Throw {A} e.

Inductive ResolverKind := RProxy | RUserAgent | RHeaders | RAuth.

#[global] Instance ResolverKind_eq_dec : EqDecision ResolverKind.
Proof. solve_decision. Defined.

(** A line written by [logger.error]. *)
Inductive LogEntry :=
| AttemptFailed (what url : string) (attemptNumber retriesLeft : nat)
| DownloadFailed (url msg : string).

(** Observable steps, in the order they happen. *)
Inductive Event :=
| ResolveStart (k : ResolverKind)     (* [x.resolve(url, method, body)] is called *)
| ResolveEnd (k : ResolverKind)       (* the promise it returned has settled *)
| BeforeRequest                       (* [provider.beforeRequest(config)] *)
| Attempt (config : AxiosRequestConfig)   (* [axios.request(config)] *)
| EnsureDir (filepath : string)       (* [fs.ensureDir(path.dirname(filepath))] *)
| DownloadAttempt (url : string) (options : option DownloadOptions)
| Log (entry : LogEntry).

(** The mutable state the module reads and writes: [crawler.active], the
    pending tasks of [crawler.scheduler], the reason held by the cancel
    token once it is tripped, and the trace. *)
Record World := {
  active : bool;
  scheduler : list Task;
  cancelled : option string;
  trace : list Event
}.

Definition emit (e : Event) (w : World) : World :=
  {| active := active w; scheduler := scheduler w;
     cancelled := cancelled w; trace := trace w ++ [e] |}.

Definition set_scheduler (q : list Task) (w : World) : World :=
  {| active := active w; scheduler := q;
     cancelled := cancelled w; trace := trace w |}.

Definition is_resolve_start (k : ResolverKind) (e : Event) : bool :=
  match e with
  | ResolveStart k' => bool_decide (k = k')
  | _ => false
  end.

Definition is_attempt (e : Event) : bool :=
  match e with Attempt _ => true | _ => false end.

Definition is_download_attempt (e : Event) : bool :=
  match e with DownloadAttempt _ _ => true | _ => false end.

Definition is_notification (e : Event) : bool :=
  match e with Log (AttemptFailed _ _ _ _) => true | _ => false end.

Definition count (p : Event -> bool) (t : list Event) : nat :=
  length (filter (fun e => p e = true) t).

(** How often resolver [k] has been invoked, how many network calls and
    how many download streams were started so far. *)
Definition invocations (k : ResolverKind) (w : World) : nat :=
  count (is_resolve_start k) (trace w).
Definition attempts (w : World) : nat := count is_attempt (trace w).
Definition download_attempts (w : World) : nat :=
  count is_download_attempt (trace w).
Definition notifications (w : World) : nat :=
  count is_notification (trace w).

(** ** The monad of asynchronous code

    An [async] function body is a computation that threads the world
    and may throw; [await] is [bind]: the continuation runs only after
    the awaited promise has settled. *)
Definition M (A : Type) : Type := World -> Result A * World.

Definition ret {A} (a : A) : M A := fun w => (Ok a, w).

Definition throw {A} (e : JsError) : M A := fun w => (Throw e, w).

Definition bind {A B} (m : M A) (k : A -> M B) : M B :=
  fun w =>
    match m w with
    | (Ok a, w') => k a w'
    | (Throw e, w') => (Throw e, w')
    end.

Definition tell (e : Event) : M unit := fun w => (Ok tt, emit e w).

Notation "'await' x '<-' m 'in' k" := (bind m (fun x => k))
  (at level 10, x name, m at level 100, k at level 200).
Notation "'exec' m 'in' k" := (bind m (fun _ => k))
  (at level 10, m at level 100, k at level 200).

(** ** The crawler as seen from http.ts *)

(** A resolver ([proxy], [userAgent], [headers], [auth]): its [resolve]
    method gets the url, the method and the body and settles with a value
    or with [undefined], or rejects.  The first argument is the number of
    times it was invoked before, so consecutive invocations may give
    different values (a rotating user agent, a proxy pool). *)
Definition Resolver (A : Type) : Type :=
  nat -> string -> Method -> Body -> Result (option A).

(** [crawler.provider]: optional static headers and an optional hook that
    may change the config in place, or reject. *)
Record Provider := {
  defaultHeaders : option HTTPHeaders;
  beforeRequest : option (AxiosRequestConfig -> Result AxiosRequestConfig)
}.

Record Options := { retry : nat; timeout : N }.

Record Crawler := {
  options : Options;
  proxy : option (Resolver ProxyConfig);
  userAgent : option (Resolver string);
  headers : option (Resolver HTTPHeaders);
  auth : option (Resolver Auth);
  provider : Provider
}.

(** ** The outside world: network and streams *)

(** What happens to one [axios.request] while it is in flight, before
    the timer of [pTimeout] or anything else settles it. *)
Inductive NetOutcome :=
| Responds (r : AxiosResponse)
| Fails (msg : string)
| Hangs                        (* nothing before the timeout *)
| CancelInFlight.              (* [Http.cancel()] is called meanwhile *)

(** What one download attempt observes, in order of arrival: the
    rejection of the source stream ([stream.catch]), the [error] and
    [finish] events of the write stream, the timer of [pTimeout], a call
    of [Http.cancel()]. *)
Inductive StreamEvent :=
| SourceError (msg : string)
| DestError (msg : string)
| DestFinish
| TimerFires
| CancelCalled.

(** The environment answers the n-th network call and the n-th download
    attempt (both counted from 0) and says whether the directory of a
    file can be created ([Some msg]: it cannot). *)
Record Env := {
  network : nat -> AxiosRequestConfig -> NetOutcome;
  streams : nat -> string -> option DownloadOptions -> list StreamEvent;
  ensureDirFails : string -> option string
}.

(** ** The libraries the module calls *)

(** *** p-retry (over node-retry)

    The library is not part of the repository; this is its behaviour as
    of p-retry 4.  [pRetry(run, { retries, onFailedAttempt })] calls
    [run] and, when it rejects:
    - with something that is not an [Error], rejects with a [TypeError]
      that quotes it, without [onFailedAttempt] and without retrying;
    - with a [TypeError], rejects with it, likewise;
    - otherwise decorates the error with [attemptNumber] (from 1) and
      [retriesLeft], awaits [onFailedAttempt(error)], and either retries
      or, when no retry is left, rejects with [operation.mainError()].
    The attempts of one call are sequential.  The delay between two
    attempts is not modelled. *)

Definition count_message (m : string) (seen : list JsError) : nat :=
  length (filter (fun e => message e = m) seen).

(** [RetryOperation.mainError]: the error whose message occurred most
    often, the latest one among equals; [main] is the candidate so far. *)
Fixpoint mainError_from (seen rest : list JsError)
    (main : JsError) (mainCount : nat) : JsError :=
  match rest with
  | [] => main
  | e :: rest' =>
      let n := S (count_message (message e) seen) in
      if mainCount <=? n
      then mainError_from (seen ++ [e]) rest' e n
      else mainError_from (seen ++ [e]) rest' main mainCount
  end.

Definition mainError (last : JsError) (errors : list JsError) : JsError :=
  mainError_from [] errors last 0.

(** [String(error)] of a thrown value; axios prints a [Cancel] as
    [Cancel: reason]. *)
Definition to_string (e : JsError) : string :=
  match e with
  | Error m => "Error: " +:+ m
  | TimeoutError => "TimeoutError: " +:+ message TimeoutError
  | TypeError m => "TypeError: " +:+ m
  | Cancel m => if String.eqb m "" then "Cancel" else "Cancel: " +:+ m
  end.

Definition double_quote : string := String (Ascii.ascii_of_nat 34) EmptyString.

Definition non_error_message (e : JsError) : string :=
  "Non-error was thrown: " +:+ double_quote +:+ to_string e +:+ double_quote
  +:+ ". You should only throw errors.".

Fixpoint pRetry_from {A} (run : M A)
    (onFailedAttempt : nat -> nat -> JsError -> M unit)
    (errors : list JsError) (attemptNumber retriesLeft : nat) : M A :=
  fun w =>
    match run w with
    | (Ok a, w1) => (Ok a, w1)
    | (Throw (Cancel m), w1) =>
        (Throw (TypeError (non_error_message (Cancel m))), w1)
    | (Throw (TypeError m), w1) => (Throw (TypeError m), w1)
    | (Throw e, w1) =>
        match onFailedAttempt attemptNumber retriesLeft e w1 with
        | (Throw e', w2) => (Throw e', w2)
        | (Ok _, w2) =>
            match retriesLeft with
            | O => (Throw (mainError e (errors ++ [e])), w2)
            | S n =>
                pRetry_from run onFailedAttempt (errors ++ [e])
                  (S attemptNumber) n w2
            end
        end
    end.

Definition pRetry {A} (run : M A) (retries : nat)
    (onFailedAttempt : nat -> nat -> JsError -> M unit) : M A :=
  pRetry_from run onFailedAttempt [] 1 retries.

(** [promise.catch(handler)] where the handler ends in
    [Promise.reject(err)]: the handler runs on a rejection and the same
    error is passed on. *)
Definition catch_rethrow {A} (m : M A) (handler : JsError -> M unit) : M A :=
  fun w =>
    match m w with
    | (Ok a, w1) => (Ok a, w1)
    | (Throw e, w1) =>
        match handler e w1 with
        | (Ok _, w2) => (Throw e, w2)
        | (Throw e', w2) => (Throw e', w2)
        end
    end.

(** *** The cancel token of axios

    [source.cancel(reason)] trips the token once; a second call changes
    nothing. *)
Definition trip (reason : string) (w : World) : World :=
  match cancelled w with
  | Some _ => w
  | None =>
      {| active := active w; scheduler := scheduler w;
         cancelled := Some reason; trace := trace w |}
  end.

Definition cancel_reason : string := "Operation canceled by the user.".

(** ** class Http *)

(** The state of one download attempt (the body of [run] in
    [downloadResource], lines 190-216). *)
Record Streams := {
  error : option string;            (* [let error: Error] *)
  inner : option (Result unit);     (* the promise [p] *)
  outer : option (Result unit);     (* [pTimeout(p, timeout)] *)
  rejects : list string;            (* the calls of [reject], oldest first *)
  caught : bool;                    (* [stream.catch] has run its handler *)
  errored : bool;                   (* the [once("error")] handler is spent *)
  finished : bool                   (* the [once("finish")] handler is spent *)
}.

(** A promise settles once: later calls of [resolve] or [reject] are
    ignored. *)
Definition settle {A} (p : option (Result A)) (r : Result A)
  : option (Result A) :=
  match p with
  | Some _ => p
  | None => Some r
  end.

(** [pTimeout(p, timeout)] follows [p] unless the timer came first. *)
Definition follow_inner (s : Streams) : Streams :=
  {| error := error s; inner := inner s;
     outer := match outer s with
              | Some _ => outer s
              | None => inner s
              end;
     rejects := rejects s; caught := caught s; errored := errored s;
     finished := finished s |}.

Definition streams_start : Streams :=
  {| error := None; inner := None; outer := None; rejects := [];
     caught := false; errored := false; finished := false |}.

Definition on_stream_event (ev : StreamEvent) (s : Streams) : Streams :=
  match ev with
  | SourceError m =>
      (* [stream.catch(err => { error = err; reject(err); })] *)
      if caught s then s
      else
        follow_inner
          {| error := Some m;
             inner := settle (inner s) (Throw (Error m));
             outer := outer s; rejects := rejects s ++ [m];
             caught := true; errored := errored s; finished := finished s |}
  | DestError m =>
      (* [.once("error", err => { if (!error) { error = err; reject(err); } })] *)
      if errored s then s
      else
        match error s with
        | None =>
            follow_inner
              {| error := Some m;
                 inner := settle (inner s) (Throw (Error m));
                 outer := outer s; rejects := rejects s ++ [m];
                 caught := caught s; errored := true; finished := finished s |}
        | Some _ =>
            {| error := error s; inner := inner s; outer := outer s;
               rejects := rejects s; caught := caught s; errored := true;
               finished := finished s |}
        end
  | DestFinish =>
      (* [.once("finish", () => { if (!error) { resolve(); } })] *)
      if finished s then s
      else
        match error s with
        | None =>
            follow_inner
              {| error := None; inner := settle (inner s) (Ok tt);
                 outer := outer s; rejects := rejects s;
                 caught := caught s; errored := errored s; finished := true |}
        | Some _ =>
            {| error := error s; inner := inner s; outer := outer s;
               rejects := rejects s; caught := caught s; errored := errored s;
               finished := true |}
        end
  | TimerFires =>
      {| error := error s; inner := inner s;
         outer := settle (outer s) (Throw TimeoutError);
         rejects := rejects s; caught := caught s; errored := errored s;
         finished := finished s |}
  | CancelCalled =>
      (* no handler of the attempt listens to the token *)
      s
  end.

(** The promise a resolver returns: which resolver it comes from and
    what it settles to. *)
Record Promise (A : Type) := {
  source : ResolverKind;
  settles : Result A
}.
Arguments source {A} _.
Arguments settles {A} _.

Module Http.

(** [cancel()], lines 233-235. *)
Definition cancel (w : World) : World := trip cancel_reason w.

(** The events of one download attempt, in order.  Only a call of
    [cancel] touches the world. *)
Fixpoint observe (evs : list StreamEvent) (s : Streams) (w : World)
  : Streams * World :=
  match evs with
  | [] => (s, w)
  | ev :: evs' =>
      let w' := match ev with
                | CancelCalled => cancel w
                | _ => w
                end in
      observe evs' (on_stream_event ev s) w'
  end.

(** The object [$] built by [createResponse]: the axios response with
    the callbacks below bound to it.  The elapsed time [times] and the
    cheerio selector are left out. *)
Record Response := { response : AxiosResponse }.

Definition createResponse (res : AxiosResponse) : Response :=
  {| response := res |}.

Section WithCrawler.
Context (env : Env) (crawler : Crawler).

(** [x.resolve(url, method, body)]: the call starts the resolver and
    hands back its promise at once. *)
Definition call_resolve {A} (k : ResolverKind) (r : Resolver A)
    (url : string) (method : Method) (body : Body) : M (Promise (option A)) :=
  fun w =>
    (Ok {| source := k; settles := r (invocations k w) url method body |},
     emit (ResolveStart k) w).

(** [await promise]: the function goes on once the promise has
    settled, with its value or its rejection. *)
Definition await_promise {A} (promise : Promise A) : M A :=
  fun w => (settles promise, emit (ResolveEnd (source promise)) w).

(** One element of the array of lines 115-120:
    [x ? await x.resolve(url, method, body) : absent]. *)
Definition resolve {A} (k : ResolverKind) (x : option (Resolver A))
    (absent : option A) (url : string) (method : Method) (body : Body)
  : M (option A) :=
  match x with
  | None => ret absent
  | Some r =>
      await promise <- call_resolve k r url method body in
      await_promise promise
  end.

(** The [headers] of the config, lines 129-135. *)
Definition merge_headers (url : string) (httpHeaders : option HTTPHeaders)
    (_headers : option HTTPHeaders) (_userAgent : option string)
  : HTTPHeaders :=
  let default_headers : HTTPHeaders := {[ "Reference" := HStr url ]} in
  spread
    (spread
       (spread
          (spread default_headers
             (or_empty (defaultHeaders (provider crawler))))
          (or_empty httpHeaders))
       (or_empty _headers))
    (if truthy_string _userAgent
     then {[ "User-Agent" := HStr (default "" _userAgent) ]}
     else ∅).

(** [pTimeout(axios.request(config), config.timeout)] with
    [cancelToken: this.source.token]: a tripped token rejects the call
    with the token's [Cancel], before or while it is in flight. *)
Definition axios_request (config : AxiosRequestConfig)
  : M AxiosResponse :=
  fun w =>
    let n := attempts w in
    let w1 := emit (Attempt config) w in
    match cancelled w1 with
    | Some reason => (Throw (Cancel reason), w1)
    | None =>
        match network env n config with
        | Responds r => (Ok r, w1)
        | Fails msg => (Throw (Error msg), w1)
        | Hangs => (Throw TimeoutError, w1)
        | CancelInFlight => (Throw (Cancel cancel_reason), cancel w1)
        end
    end.

(** [run] of [request], lines 143-152. *)
Definition run_request (config : AxiosRequestConfig) : M Response :=
  await res <- axios_request config in
  ret (createResponse res).

(** [request(url, method = "GET", body, httpHeaders)], lines 104-161. *)
Definition request (url : string) (method : option Method) (body : Body)
    (httpHeaders : option HTTPHeaders) : M Response :=
  let method := default "GET" method in
  await _proxy <- resolve RProxy (proxy crawler) None url method body in
  await _userAgent <-
    resolve RUserAgent (userAgent crawler) None url method body in
  await _headers <-
    resolve RHeaders (headers crawler) (Some ∅) url method body in
  await _auth <- resolve RAuth (auth crawler) None url method body in
  let config :=
    {| cfg_url := url;
       cfg_method := Some method;
       cfg_proxy := _proxy;
       cfg_timeout := timeout (options crawler);
       cfg_data := body;
       cfg_auth := _auth;
       cfg_headers := merge_headers url httpHeaders _headers _userAgent |} in
  await config <-
    match beforeRequest (provider crawler) with
    | Some hook =>
        exec tell BeforeRequest in
        fun w => (hook config, w)
    | None => ret config
    end in
  pRetry (run_request config) (retry (options crawler))
    (fun attemptNumber retriesLeft _ =>
       tell (Log (AttemptFailed (default "" (cfg_method config))
                    (cfg_url config) attemptNumber retriesLeft))).

(** [run] of [downloadResource], lines 190-216: the stream handlers
    see the events of this attempt; a promise still pending when they
    are over is rejected by the timer. *)
Definition run_download (url : string) (opts : option DownloadOptions)
  : M unit :=
  fun w =>
    let n := download_attempts w in
    let w1 := emit (DownloadAttempt url opts) w in
    let '(s, w2) := observe (streams env n url opts) streams_start w1 in
    match outer s with
    | Some r => (r, w2)
    | None => (Throw TimeoutError, w2)
    end.

(** [downloadResource(url, filepath, options)], lines 182-229. *)
Definition downloadResource (url filepath : string)
    (opts : option DownloadOptions) : M unit :=
  exec (fun w =>
          let w1 := emit (EnsureDir filepath) w in
          match ensureDirFails env filepath with
          | Some msg => (Throw (Error msg), w1)
          | None => (Ok tt, w1)
          end) in
  catch_rethrow
    (pRetry (run_download url opts) (retry (options crawler))
       (fun attemptNumber retriesLeft _ =>
          tell (Log (AttemptFailed "download" url attemptNumber
                       retriesLeft))))
    (fun err => tell (Log (DownloadFailed url (message err)))).
End WithCrawler.

(** [download(url, filepath, options)], lines 168-175. *)
Definition download (url filepath : string)
    (options : option DownloadOptions) (w : World) : World :=
  let task :=
    {| task_type := TDownload; task_method := Some "GET"; task_url := url;
       task_body := BDownload filepath options; task_headers := None |} in
  set_scheduler (Scheduler.push task (scheduler w)) w.

End Http.

(** ** The callbacks of the response object

    [createResponse] (lines 236-334) attaches four closures to [$]; each
    closes over the axios [response] and over the crawler.  Here they
    take the response object [$] as their first argument, [self]. *)
Module Response.
Import Http.

(** The [_options] object of [downloadInQueue] (lines 260-274) and of
    [download] (lines 284-298): the two callbacks build it by the same
    lines. *)
Definition inherit_options (response : AxiosResponse)
    (opts : option DownloadOptions) : DownloadOptions :=
  let _proxy := cfg_proxy (res_config response) in
  let proxy :=
    match _proxy with
    | Some p => OStr (host p +:+ ":" +:+ pretty (port p))
    | None => OUndefined
    end in
  let pureHeaders := delete "Accept" (cfg_headers (res_config response)) in
  spread (<[ "proxy" := proxy ]> {[ "headers" := OHeaders pureHeaders ]})
    (or_empty opts).

(** [$.downloadInQueue(url, filepath, options)], lines 255-276. *)
Definition downloadInQueue (self : Response) (url filepath : string)
    (opts : option DownloadOptions) (w : World) : World :=
  let _options := inherit_options (response self) opts in
  Http.download url filepath (Some _options) w.

(** [$.download(url, filepath, options)], lines 279-300. *)
Definition download (env : Env) (crawler : Crawler) (self : Response)
    (url filepath : string) (opts : option DownloadOptions) : M unit :=
  let _options := inherit_options (response self) opts in
  Http.downloadResource env crawler url filepath (Some _options).

(** [$.follow(nextUrl)], lines 303-318. *)
Definition follow (self : Response) (nextUrl : option Url) (w : World)
  : World :=
  if active w && truthy_url nextUrl then
    let headers : HTTPHeaders :=
      {[ "Reference" := HStr (cfg_url (res_config (response self))) ]} in
    match nextUrl with
    | Some (UrlString s) =>
        let task :=
          {| task_type := TRequest; task_method := Some "GET";
             task_url := s; task_body := BUndefined;
             task_headers := Some headers |} in
        set_scheduler (Scheduler.push task (scheduler w)) w
    | Some (UrlObject u) =>
        let task :=
          {| task_type := TRequest; task_method := uc_method u;
             task_url := uc_url u; task_body := uc_body u;
             task_headers :=
               Some (spread headers (or_empty (uc_headers u))) |} in
        set_scheduler (Scheduler.push task (scheduler w)) w
    | None => w
    end
  else w.

(** [$.retry()], lines 321-331. *)
Definition retry (self : Response) (w : World) : World :=
  let config := res_config (response self) in
  let method := or_string (cfg_method config) "GET" in
  let task :=
    {| task_type := TRequest; task_method := Some method;
       task_url := cfg_url config; task_body := cfg_data config;
       task_headers := Some (cfg_headers config) |} in
  set_scheduler (Scheduler.push task (scheduler w)) w.
End Response.

(** ** The selector of the response object

    [createResponse] makes [$] callable (lines 241-248): the first call
    parses [response.data] with [cheerio.load] and keeps the result in
    [select]; every call applies the parsed document to the selector
    string.  cheerio is outside the module: [load] and [apply] stand for
    [cheerio.load] and for the call [select(selector)].  [loads] counts
    the calls of [cheerio.load]. *)
Module Selector.
Section WithCheerio.
Context {Doc Found : Type} (load : string -> Doc)
        (apply : Doc -> string -> Found).

Record State := { select : option Doc; loads : nat }.

(** The closure just after [createResponse]: nothing parsed yet. *)
Definition fresh : State := {| select := None; loads := 0 |}.

(** [selector(selector)], lines 242-248. *)
Definition selector (response : AxiosResponse) (sel : string) (s : State)
  : Found * State :=
  match select s with
  | Some doc => (apply doc sel, s)
  | None =>
      let doc := load (res_data response) in
      (apply doc sel, {| select := Some doc; loads := S (loads s) |})
  end.

(** Several calls of [$], one after the other. *)
Fixpoint selectors (response : AxiosResponse) (sels : list string)
    (s : State) : list Found * State :=
  match sels with
  | [] => ([], s)
  | sel :: sels' =>
      let '(found, s1) := selector response sel s in
      let '(founds, s2) := selectors response sels' s1 in
      (found :: founds, s2)
  end.
End WithCheerio.
End Selector.

(** ** The provider of the example (the unnamed source file)

    [MyProvider.parse] follows the next page, if the page has one, and
    queues the download of every image of the page.  What the page
    contains is found with cheerio and the file names are made with the
    url and path modules of node, all outside the module: [nextPageUrl]
    is the [href] of the first [a.next], [imagesUrls] the [data-original]
    attributes of the images, [filePath imageUrl] the path under
    [images/] the loop computes for an image. *)
Module MyProvider.
End MyProvider.

(** ** What the specification says, in its own words *)

(** "for any header key present in several sources, the later source in
    the precedence order wins": the value of [key] in the merge of
    [sources], listed from lowest to highest precedence. *)
Definition later_source_wins (sources : list HTTPHeaders) (key : string)
  : option HeaderValue :=
  foldl (fun found source =>
           match source !! key with
           | Some v => Some v
           | None => found
           end) None sources.

(** The five header sources of a request in the order of the
    specification: the default Reference header, the provider's default
    headers, the caller's headers, the headers of the headers resolver,
    the User-Agent injected from the identity resolver. *)
Definition header_sources (crawler : Crawler) (url : string)
    (httpHeaders _headers : option HTTPHeaders) (_userAgent : option string)
  : list HTTPHeaders :=
  [ {[ "Reference" := HStr url ]};
    or_empty (defaultHeaders (provider crawler));
    or_empty httpHeaders;
    or_empty _headers;
    match _userAgent with
    | Some ua => if String.eqb ua "" then ∅ else {[ "User-Agent" := HStr ua ]}
    | None => ∅
    end ].

(** ** Reading a trace *)

(** The world after the events [evs]. *)
Definition emits (evs : list Event) (w : World) : World :=
  {| active := active w; scheduler := scheduler w;
     cancelled := cancelled w; trace := trace w ++ evs |}.

(** The events of an execution that took [w] to [w']. *)
Definition new_events (w w' : World) : list Event :=
  drop (length (trace w)) (trace w').

(** The events strictly before the last network call of a trace. *)
Fixpoint before_last_attempt (t : list Event) : list Event :=
  match t with
  | [] => []
  | e :: t' =>
      if existsb is_attempt t' then e :: before_last_attempt t' else []
  end.

(** Whether two resolver invocations overlap in a trace: some resolver
    is called while the promise of an earlier call ([pending]) has not
    settled yet. *)
Fixpoint overlapping (pending : list ResolverKind) (t : list Event) : bool :=
  match t with
  | [] => false
  | ResolveStart k :: t' =>
      match pending with
      | [] => overlapping [k] t'
      | _ :: _ => true
      end
  | ResolveEnd k :: t' =>
      overlapping (filter (fun k' => k' <> k) pending) t'
  | _ :: t' => overlapping pending t'
  end.

(** Whether resolver [k] is configured on the crawler. *)
Definition is_configured {A} (x : option A) : bool :=
  match x with
  | Some _ => true
  | None => false
  end.

Definition configured (crawler : Crawler) (k : ResolverKind) : bool :=
  match k with
  | RProxy => is_configured (proxy crawler)
  | RUserAgent => is_configured (userAgent crawler)
  | RHeaders => is_configured (headers crawler)
  | RAuth => is_configured (auth crawler)
  end.

(** The resolvers in the order in which [request] names them. *)
Definition resolver_order : list ResolverKind :=
  [RProxy; RUserAgent; RHeaders; RAuth].

(** One resolver after the other: the events of the resolvers [ks] when
    each configured one is called and awaited before the next is
    looked at. *)
Definition sequential_resolution (crawler : Crawler)
    (ks : list ResolverKind) : list Event :=
  flat_map (fun k =>
              if configured crawler k
              then [ResolveStart k; ResolveEnd k]
              else []) ks.

(** A failure of the network call that the retry loop retries: an
    ordinary error or a timeout. *)
Definition transient (o : NetOutcome) : bool :=
  match o with
  | Fails _ | Hangs => true
  | Responds _ | CancelInFlight => false
  end.

(** The errors the retry loop reports and retries: ordinary errors and
    timeouts. *)
Definition plain (e : JsError) : bool :=
  match e with
  | Error _ | TimeoutError => true
  | TypeError _ | Cancel _ => false
  end.

(** The events a retry loop of [request] may add: a network call with
    the config of the loop, or a failure notification. *)
Definition loop_event (config : AxiosRequestConfig) (e : Event) : Prop :=
  e = Attempt config \/ is_notification e = true.

(** The events of a retry loop, started at attempt [attemptNumber] with
    [retriesLeft] retries left, in which every attempt fails: a network
    call with [config], then the failure notification. *)
Fixpoint failing_attempts (config : AxiosRequestConfig)
    (attemptNumber retriesLeft : nat) : list Event :=
  Attempt config
  :: Log (AttemptFailed (default "" (cfg_method config)) (cfg_url config)
            attemptNumber retriesLeft)
  :: match retriesLeft with
     | O => []
     | S n => failing_attempts config (S attemptNumber) n
     end.

(** What the specification asks of the resolvers of one request ("all
    resolvers run concurrently"; "await all four resolver calls
    concurrently, proceed once all complete"): every configured resolver
    is called, and only then are the promises awaited. *)
Definition start_resolve {A} (k : ResolverKind) (x : option (Resolver A))
    (url : string) (method : Method) (body : Body)
  : M (option (Promise (option A))) :=
  match x with
  | None => ret None
  | Some r =>
      await promise <- Http.call_resolve k r url method body in
      ret (Some promise)
  end.

Definition await_resolve {A} (absent : option A)
    (promise : option (Promise (option A))) : M (option A) :=
  match promise with
  | None => ret absent
  | Some p => Http.await_promise p
  end.

Definition resolve_concurrently_spec (crawler : Crawler) (url : string)
    (method : Method) (body : Body)
  : M (option ProxyConfig * option string * option HTTPHeaders * option Auth) :=
  await p1 <- start_resolve RProxy (proxy crawler) url method body in
  await p2 <- start_resolve RUserAgent (userAgent crawler) url method body in
  await p3 <- start_resolve RHeaders (headers crawler) url method body in
  await p4 <- start_resolve RAuth (auth crawler) url method body in
  await _proxy <- await_resolve None p1 in
  await _userAgent <- await_resolve None p2 in
  await _headers <- await_resolve (Some ∅) p3 in
  await _auth <- await_resolve None p4 in
  ret (_proxy, _userAgent, _headers, _auth).

(** The part of [request] before the retry loop, lines 110-141: the
    resolvers, the config, the hook. *)
Definition prepare (crawler : Crawler) (url : string)
    (method : option Method) (body : Body)
    (httpHeaders : option HTTPHeaders) : M AxiosRequestConfig :=
  let method := default "GET" method in
  await _proxy <- Http.resolve RProxy (proxy crawler) None url method body in
  await _userAgent <-
    Http.resolve RUserAgent (userAgent crawler) None url method body in
  await _headers <-
    Http.resolve RHeaders (headers crawler) (Some ∅) url method body in
  await _auth <- Http.resolve RAuth (auth crawler) None url method body in
  let config :=
    {| cfg_url := url;
       cfg_method := Some method;
       cfg_proxy := _proxy;
       cfg_timeout := timeout (options crawler);
       cfg_data := body;
       cfg_auth := _auth;
       cfg_headers :=
         Http.merge_headers crawler url httpHeaders _headers _userAgent |} in
  match beforeRequest (provider crawler) with
  | Some hook =>
      exec tell BeforeRequest in
      fun w => (hook config, w)
  | None => ret config
  end.

(** [onFailedAttempt] of [request], lines 155-159. *)
Definition request_failed (config : AxiosRequestConfig)
    (attemptNumber retriesLeft : nat) (_ : JsError) : M unit :=
  tell (Log (AttemptFailed (default "" (cfg_method config)) (cfg_url config)
               attemptNumber retriesLeft)).

(** The headers a caller hands to [follow]: those of the request
    descriptor, none with a bare url. *)
Definition caller_headers (nextUrl : Url) : HTTPHeaders :=
  match nextUrl with
  | UrlString _ => ∅
  | UrlObject u => or_empty (uc_headers u)
  end.

(** The [proxy] option a download inherits from a response: ["host:port"]
    of the proxy the request went through, [undefined] without one. *)
Definition inherited_proxy (response : AxiosResponse) : OptionValue :=
  match cfg_proxy (res_config response) with
  | Some p => OStr (host p +:+ ":" +:+ pretty (port p))
  | None => OUndefined
  end.

(** The download task [Http.download] pushes. *)
Definition download_task (url filepath : string) (opts : DownloadOptions)
  : Task :=
  {| task_type := TDownload; task_method := Some "GET"; task_url := url;
     task_body := BDownload filepath (Some opts); task_headers := None |}.

(** What the handlers of one download attempt make of the events
    [evs], whatever the world. *)
Definition stream_outcome (evs : list StreamEvent) : Result unit :=
  match outer (foldl (fun s ev => on_stream_event ev s) streams_start evs) with
  | Some r => r
  | None => Throw TimeoutError
  end.

Definition is_cancel_call (ev : StreamEvent) : bool :=
  match ev with
  | CancelCalled => true
  | _ => false
  end.

(** What resolver [x] of kind [k] answers when invoked in world [w];
    [absent] stands in for a resolver that is not configured. *)
Definition answer_of {A} (k : ResolverKind) (x : option (Resolver A))
    (absent : option A) (url : string) (method : Method) (body : Body)
    (w : World) : Result (option A) :=
  match x with
  | None => Ok absent
  | Some r => r (invocations k w) url method body
  end.

(** ** Further readings of a trace *)

(** [onFailedAttempt] of both retry loops (lines 155-159 and 220-224):
    one line of the log naming the attempt and the retries left. *)
Definition notify_failed (what url : string)
    (attemptNumber retriesLeft : nat) (_ : JsError) : M unit :=
  tell (Log (AttemptFailed what url attemptNumber retriesLeft)).


Definition is_hook (e : Event) : bool :=
  match e with BeforeRequest => true | _ => false end.


(** What an execution must leave alone: the flag and the queue of the
    crawler stay as they are and a tripped token stays tripped, with its
    reason. *)
Definition undisturbed (w w' : World) : Prop :=
  active w' = active w /\
  scheduler w' = scheduler w /\
  (forall reason, cancelled w = Some reason -> cancelled w' = Some reason).


(** The events of the first [k] rounds of a retry loop of [request] in
    which the network call fails: the call, then its notification. *)
Fixpoint failed_rounds (config : AxiosRequestConfig)
    (attemptNumber retriesLeft k : nat) : list Event :=
  match k with
  | O => []
  | S k' =>
      Attempt config
      :: Log (AttemptFailed (default "" (cfg_method config)) (cfg_url config)
                attemptNumber retriesLeft)
      :: failed_rounds config (S attemptNumber) (pred retriesLeft) k'
  end.

(** The error a promise rejects with, if it does. *)
Definition failure_of {A} (r : Result A) : option JsError :=
  match r with
  | Ok _ => None
  | Throw e => Some e
  end.

(** The error resolver [k] of the crawler rejects with when invoked in
    world [w]; [None] when it answers or is not configured. *)
Definition rejection_of (crawler : Crawler) (url : string) (method : Method)
    (body : Body) (w : World) (k : ResolverKind) : option JsError :=
  match k with
  | RProxy =>
      failure_of (answer_of RProxy (proxy crawler) None url method body w)
  | RUserAgent =>
      failure_of (answer_of RUserAgent (userAgent crawler) None url method
                    body w)
  | RHeaders =>
      failure_of (answer_of RHeaders (headers crawler) (Some ∅) url method
                    body w)
  | RAuth =>
      failure_of (answer_of RAuth (auth crawler) None url method body w)
  end.

(** The place of a resolver in the array of lines 115-120. *)
Definition position (k : ResolverKind) : nat :=
  match k with
  | RProxy => 0
  | RUserAgent => 1
  | RHeaders => 2
  | RAuth => 3
  end.

(** What decides a download attempt: the first thing that happens to
    it, calls of [cancel] apart. *)
Definition first_event_outcome (evs : list StreamEvent) : Result unit :=
  match filter (fun ev => is_cancel_call ev = false) evs with
  | SourceError m :: _ | DestError m :: _ => Throw (Error m)
  | DestFinish :: _ => Ok tt
  | TimerFires :: _ | CancelCalled :: _ | [] => Throw TimeoutError
  end.

(** ** Sample inputs *)

Module Sample.
(** A running crawler with an empty queue, and the same once stopped. *)
Definition running : World :=
  {| active := true; scheduler := []; cancelled := None; trace := [] |}.

Definition stopped : World :=
  {| active := false; scheduler := []; cancelled := None; trace := [] |}.

(** A network on which every request is reset, and a download whose
    write stream fails before its source does. *)
Definition unreachable : Env :=
  {| network := fun _ _ => Fails "ECONNRESET";
     streams := fun _ _ _ => [DestError "EACCES"; SourceError "ECONNRESET"];
     ensureDirFails := fun _ => None |}.

(** A proxy pool and a user-agent list that hand out a new value on
    every invocation. *)
Definition proxy_pool : Resolver ProxyConfig :=
  fun n _ _ _ => Ok (Some {| host := "10.0.0.1"; port := 8000 + N.of_nat n |}).

Definition agents : Resolver string :=
  fun n _ _ _ => Ok (Some ("bot/" +:+ pretty n)).

Definition crawler (retries : nat) : Crawler :=
  {| options := {| retry := retries; timeout := 5000 |};
     proxy := Some proxy_pool;
     userAgent := Some agents;
     headers := None;
     auth := None;
     provider := {| defaultHeaders := None; beforeRequest := None |} |}.

Definition page : string := "https://example.org/page/1".

(** The config [request] builds for [page] on [running]. *)
Definition config : AxiosRequestConfig :=
  {| cfg_url := page;
     cfg_method := Some "GET";
     cfg_proxy := Some {| host := "10.0.0.1"; port := 8000 |};
     cfg_timeout := 5000;
     cfg_data := BUndefined;
     cfg_auth := None;
     cfg_headers :=
       <[ "User-Agent" := HStr "bot/0" ]> {[ "Reference" := HStr page ]} |}.

(** A response to [page] as axios hands it back: axios has added its
    [Accept] header to the config. *)
Definition answer : AxiosResponse :=
  {| res_status := 200;
     res_data := "<html></html>";
     res_config :=
       {| cfg_url := page;
          cfg_method := Some "get";
          cfg_proxy := Some {| host := "10.0.0.1"; port := 8000 |};
          cfg_timeout := 5000;
          cfg_data := BUndefined;
          cfg_auth := None;
          cfg_headers :=
            <[ "Accept" := HStr "application/json, text/plain, */*" ]>
              (<[ "User-Agent" := HStr "bot/0" ]>
                 {[ "Reference" := HStr page ]}) |} |}.

(** [Http.cancel()] is called while every operation is in flight; the
    download then runs to its end. *)
Definition cancelling : Env :=
  {| network := fun _ _ => CancelInFlight;
     streams := fun _ _ _ => [CancelCalled; DestFinish];
     ensureDirFails := fun _ => None |}.

(** A network that resets the first two calls and then answers. *)
Definition flaky : Env :=
  {| network := fun n _ => if n <? 2 then Fails "ECONNRESET" else Responds answer;
     streams := fun n _ _ => if n <? 1 then [SourceError "ECONNRESET"]
                             else [DestFinish];
     ensureDirFails := fun _ => None |}.

(** A crawler whose user-agent list is exhausted, with a headers
    resolver behind it. *)
Definition out_of_agents : Crawler :=
  {| options := {| retry := 3; timeout := 5000 |};
     proxy := Some proxy_pool;
     userAgent := Some (fun _ _ _ _ => Throw (Error "no user agent left"));
     headers := Some (fun _ _ _ _ => Ok (Some {[ "X-Run" := HStr "1" ]}));
     auth := None;
     provider := {| defaultHeaders := None; beforeRequest := None |} |}.

(** A provider whose hook sends every request to a mirror, and one
    whose hook refuses to go on. *)
Definition mirror : string := "https://mirror.example.org/page/1".

Definition mirrored : Crawler :=
  {| options := {| retry := 1; timeout := 5000 |};
     proxy := None;
     userAgent := None;
     headers := None;
     auth := None;
     provider :=
       {| defaultHeaders := None;
          beforeRequest :=
            Some (fun c =>
                    Ok {| cfg_url := mirror; cfg_method := cfg_method c;
                          cfg_proxy := cfg_proxy c;
                          cfg_timeout := cfg_timeout c;
                          cfg_data := cfg_data c; cfg_auth := cfg_auth c;
                          cfg_headers := cfg_headers c |}) |} |}.

Definition refusing : Crawler :=
  {| options := {| retry := 1; timeout := 5000 |};
     proxy := Some proxy_pool;
     userAgent := None;
     headers := None;
     auth := None;
     provider :=
       {| defaultHeaders := None;
          beforeRequest := Some (fun _ => Throw (Error "not allowed")) |} |}.

Definition image : string := "https://example.org/img/1.jpg".
Definition file : string := "/tmp/images/1.jpg".
End Sample.

(** ** Object spread *)

Lemma lookup_spread {V} (base over : gmap string V) (key : string) :
  spread base over !! key =
  match over !! key with
  | Some v => Some v
  | None => base !! key
  end.
Proof.
  unfold spread. rewrite lookup_union.
  destruct (over !! key), (base !! key); reflexivity.
Qed.

Lemma lookup_spread_over {V} (base over : gmap string V) key v :
  over !! key = Some v -> spread base over !! key = Some v.
Proof. intros H. rewrite lookup_spread, H. reflexivity. Qed.

Lemma lookup_spread_base {V} (base over : gmap string V) key :
  over !! key = None -> spread base over !! key = base !! key.
Proof. intros H. rewrite lookup_spread, H. reflexivity. Qed.

(** ** The header merge of [request] *)

(** C6.  For every request, the header map of the config built at lines
    122-137 is the merge of the five header sources in which, for every
    key, the latest source that has the key decides: default Reference
    header, then provider default headers, then caller-supplied headers,
    then the headers resolver's headers, then the User-Agent taken from
    the identity resolver. *)
Theorem C6_merged_headers_precedence :
  forall (crawler : Crawler) (url : string)
         (httpHeaders _headers : option HTTPHeaders)
         (_userAgent : option string) (key : string),
    Http.merge_headers crawler url httpHeaders _headers _userAgent !! key =
    later_source_wins
      (header_sources crawler url httpHeaders _headers _userAgent) key.
Proof.
  intros crawler url httpHeaders _headers _userAgent key.
  unfold Http.merge_headers, header_sources, later_source_wins.
  cbn [foldl].
  rewrite !lookup_spread.
  assert (Hua :
    (if truthy_string _userAgent
     then ({[ "User-Agent" := HStr (default "" _userAgent) ]} : HTTPHeaders)
     else ∅) =
    match _userAgent with
    | Some ua => if String.eqb ua "" then ∅ else {[ "User-Agent" := HStr ua ]}
    | None => ∅
    end).
  { destruct _userAgent as [ua|]; cbn; [|reflexivity].
    destruct (String.eqb ua ""); reflexivity. }
  rewrite Hua. clear Hua.
  repeat match goal with
         | |- context [match ?m !! key with _ => _ end] =>
             destruct (m !! key) eqn:?
         end; try reflexivity; congruence.
Qed.

(** ** Counting in traces *)

Lemma count_app p (t1 t2 : list Event) :
  count p (t1 ++ t2) = count p t1 + count p t2.
Proof. unfold count. rewrite filter_app, length_app. reflexivity. Qed.

Lemma emits_nil w : emits [] w = w.
Proof. destruct w. unfold emits. cbn. rewrite app_nil_r. reflexivity. Qed.

Lemma emits_emits evs1 evs2 w :
  emits evs2 (emits evs1 w) = emits (evs1 ++ evs2) w.
Proof. unfold emits. cbn. rewrite app_assoc. reflexivity. Qed.

Lemma emit_emits e w : emit e w = emits [e] w.
Proof. reflexivity. Qed.

Lemma new_events_emits evs w : new_events w (emits evs w) = evs.
Proof. unfold new_events, emits. cbn. apply drop_app_length. Qed.

Lemma invocations_emits k evs w :
  invocations k (emits evs w) =
  invocations k w + count (is_resolve_start k) evs.
Proof. unfold invocations. cbn. apply count_app. Qed.

Lemma attempts_emits evs w :
  attempts (emits evs w) = attempts w + count is_attempt evs.
Proof. unfold attempts. cbn. apply count_app. Qed.

Lemma notifications_emits evs w :
  notifications (emits evs w) = notifications w + count is_notification evs.
Proof. unfold notifications. cbn. apply count_app. Qed.

(** ** [request] is its preparation followed by the retry loop *)

Lemma request_prepare env crawler url method body httpHeaders w :
  Http.request env crawler url method body httpHeaders w =
  bind (prepare crawler url method body httpHeaders)
    (fun config =>
       pRetry (Http.run_request env config) (retry (options crawler))
         (request_failed config)) w.
Proof.
  unfold Http.request, prepare, Http.resolve, Http.call_resolve,
    Http.await_promise; unfold bind, ret; cbv beta iota zeta;
    cbn [source settles].
  destruct (proxy crawler) as [rp|];
    [destruct (rp _ _ _ _) as [vp|ep]|]; [| reflexivity |];
  (destruct (userAgent crawler) as [ru|];
    [destruct (ru _ _ _ _) as [vu|eu]|]; [| reflexivity |]);
  (destruct (headers crawler) as [rh|];
    [destruct (rh _ _ _ _) as [vh|eh]|]; [| reflexivity |]);
  (destruct (auth crawler) as [ra|];
    [destruct (ra _ _ _ _) as [va|ea]|]; [| reflexivity |]);
  (destruct (beforeRequest (provider crawler)) as [hook|];
    [cbn; destruct (hook _) as [c|e]|]; reflexivity).
Qed.

(** ** The preparation of a request *)

Lemma resolve_world {A} k (x : option (Resolver A)) absent url method body w :
  snd (Http.resolve k x absent url method body w) =
  emits (if is_configured x then [ResolveStart k; ResolveEnd k] else []) w.
Proof.
  destruct x as [r|]; cbn.
  - rewrite !emit_emits, emits_emits. reflexivity.
  - symmetry. apply emits_nil.
Qed.

Ltac close_trace :=
  cbn; rewrite ?emit_emits, ?emits_emits; cbn;
  first [reflexivity | symmetry; apply emits_nil].

(** The trace of a preparation is the sequential resolution of a prefix
    of the resolvers, all of them and the hook when it succeeds. *)
Lemma prepare_trace crawler url method body httpHeaders w :
  exists (j : nat) (hooked : bool),
    snd (prepare crawler url method body httpHeaders w) =
    emits (sequential_resolution crawler (take j resolver_order)
           ++ (if hooked then [BeforeRequest] else [])) w /\
    (forall config,
       fst (prepare crawler url method body httpHeaders w) = Ok config ->
       j = 4 /\
       hooked = is_configured (beforeRequest (provider crawler))).
Proof.
  unfold prepare, Http.resolve, Http.call_resolve, Http.await_promise,
    sequential_resolution, resolver_order, configured;
    unfold bind, ret, tell; cbv beta iota zeta; cbn [source settles].
  destruct (proxy crawler) as [rp|]; cbn [is_configured];
    [destruct (rp _ _ _ _) as [vp|ep]|];
    [| exists 1, false; split; [close_trace | discriminate] |];
  (destruct (userAgent crawler) as [ru|]; cbn [is_configured];
    [destruct (ru _ _ _ _) as [vu|eu]|];
    [| exists 2, false; split; [close_trace | discriminate] |]);
  (destruct (headers crawler) as [rh|]; cbn [is_configured];
    [destruct (rh _ _ _ _) as [vh|eh]|];
    [| exists 3, false; split; [close_trace | discriminate] |]);
  (destruct (auth crawler) as [ra|]; cbn [is_configured];
    [destruct (ra _ _ _ _) as [va|ea]|];
    [| exists 4, false; split; [close_trace | discriminate] |]);
  (destruct (beforeRequest (provider crawler)) as [hook|];
    [ exists 4, true; cbn [is_configured]; destruct (hook _) as [c|e]
    | exists 4, false ];
    (split; [close_trace | auto; discriminate])).
Qed.

(** ** The retry loop *)

Lemma pRetry_from_unfold {A} (run : M A) notify errors attemptNumber
    retriesLeft w :
  pRetry_from run notify errors attemptNumber retriesLeft w =
  match run w with
  | (Ok a, w1) => (Ok a, w1)
  | (Throw (Cancel m), w1) =>
      (Throw (TypeError (non_error_message (Cancel m))), w1)
  | (Throw (TypeError m), w1) => (Throw (TypeError m), w1)
  | (Throw e, w1) =>
      match notify attemptNumber retriesLeft e w1 with
      | (Throw e', w2) => (Throw e', w2)
      | (Ok _, w2) =>
          match retriesLeft with
          | O => (Throw (mainError e (errors ++ [e])), w2)
          | S n =>
              pRetry_from run notify (errors ++ [e]) (S attemptNumber) n w2
          end
      end
  end.
Proof. destruct retriesLeft; reflexivity. Qed.

Lemma mainError_from_In seen rest main n :
  In (mainError_from seen rest main n) (main :: rest).
Proof.
  revert seen main n.
  induction rest as [|e rest IH]; intros seen main n; cbn.
  - left. reflexivity.
  - destruct (n <=? S (count_message (message e) seen)).
    + destruct (IH (seen ++ [e]) e (S (count_message (message e) seen)))
        as [H|H]; auto.
    + destruct (IH (seen ++ [e]) main n) as [H|H]; auto.
Qed.

Lemma mainError_plain last errors :
  plain last = true -> Forall (fun e => plain e = true) errors ->
  plain (mainError last errors) = true.
Proof.
  intros Hlast Hall. unfold mainError.
  destruct (mainError_from_In [] errors last 0) as [H|H].
  - rewrite <- H. exact Hlast.
  - rewrite Forall_forall in Hall. apply Hall.
    apply list_elem_of_In. exact H.
Qed.

(** One network call that fails for a transient reason while the token
    is not tripped. *)
Lemma run_request_transient env config w :
  cancelled w = None ->
  transient (network env (attempts w) config) = true ->
  exists e,
    plain e = true /\
    Http.run_request env config w = (Throw e, emits [Attempt config] w).
Proof.
  intros Hc Ht.
  unfold Http.run_request, bind, Http.axios_request. cbn. rewrite Hc.
  destruct (network env (attempts w) config); try discriminate.
  - exists (Error msg). split; reflexivity.
  - exists TimeoutError. split; reflexivity.
Qed.

(** The retry loop of [request] when every network call fails for a
    transient reason: each attempt is followed by its notification, the
    last one included, and the loop ends in one rejection. *)
Lemma pRetry_always_fails env config :
  (forall n, transient (network env n config) = true) ->
  forall retriesLeft errors attemptNumber w,
    cancelled w = None ->
    Forall (fun e => plain e = true) errors ->
    exists e,
      plain e = true /\
      pRetry_from (Http.run_request env config) (request_failed config)
        errors attemptNumber retriesLeft w =
      (Throw e, emits (failing_attempts config attemptNumber retriesLeft) w).
Proof.
  intros Hnet.
  induction retriesLeft as [|n IH]; intros errors attemptNumber w Hc Herr;
    rewrite pRetry_from_unfold;
    destruct (run_request_transient env config w Hc (Hnet _))
      as (e & He & Hrun);
    rewrite Hrun.
  - exists (mainError e (errors ++ [e])). split.
    + apply mainError_plain; [exact He|].
      apply Forall_app. split; [exact Herr | repeat constructor; exact He].
    + destruct e; try discriminate; cbn;
        rewrite emit_emits, emits_emits; reflexivity.
  - destruct (IH (errors ++ [e]) (S attemptNumber)
                (emits [Attempt config;
                        Log (AttemptFailed (default "" (cfg_method config))
                               (cfg_url config) attemptNumber (S n))] w))
      as (e' & He' & Hloop).
    + exact Hc.
    + apply Forall_app. split; [exact Herr | repeat constructor; exact He].
    + exists e'. split; [exact He'|].
      destruct e; try discriminate; cbn;
        rewrite emit_emits, emits_emits; cbn;
        rewrite Hloop, emits_emits; reflexivity.
Qed.

Lemma run_request_trace env config w :
  trace (snd (Http.run_request env config w)) = trace w ++ [Attempt config].
Proof.
  unfold Http.run_request, bind, Http.axios_request, Http.cancel, trip. cbn.
  destruct (cancelled w); cbn; [reflexivity|].
  destruct (network env (attempts w) config); reflexivity.
Qed.

Lemma count_cons p e (t : list Event) :
  count p (e :: t) = (if p e then 1 else 0) + count p t.
Proof.
  unfold count. rewrite filter_cons.
  destruct (p e); cbn; rewrite decide_bool_decide; reflexivity.
Qed.

(** Whatever the network does, the retry loop of [request] only adds
    network calls with the one [config] and failure notifications. *)
Lemma pRetry_request_events env config :
  forall retriesLeft errors attemptNumber w,
  exists evs,
    trace (snd (pRetry_from (Http.run_request env config)
                  (request_failed config) errors attemptNumber retriesLeft w))
    = trace w ++ evs /\
    Forall (loop_event config) evs /\
    1 <= count is_attempt evs.
Proof.
  assert (Hone : forall w w1 : World,
            trace w1 = trace w ++ [Attempt config] ->
            exists evs, trace w1 = trace w ++ evs /\
                        Forall (loop_event config) evs /\
                        1 <= count is_attempt evs).
  { intros w w1 H. exists [Attempt config]. split; [exact H|].
    split; [|rewrite count_cons; cbn; lia].
    constructor; [left; reflexivity | constructor]. }
  assert (Hlast : forall (w w1 : World) a,
            trace w1 = trace w ++ [Attempt config] ->
            exists evs,
              trace (emit (Log (AttemptFailed (default "" (cfg_method config))
                                  (cfg_url config) a 0)) w1)
              = trace w ++ evs /\
              Forall (loop_event config) evs /\
              1 <= count is_attempt evs).
  { intros w w1 a H.
    exists [Attempt config;
            Log (AttemptFailed (default "" (cfg_method config))
                   (cfg_url config) a 0)].
    unfold emit; cbn [trace]. rewrite H, <- app_assoc.
    split; [reflexivity|]. split; [|rewrite count_cons; cbn; lia].
    constructor; [left; reflexivity|].
    constructor; [right; reflexivity | constructor]. }
  assert (Hnext : forall (w w1 w' : World) a r,
            trace w1 = trace w ++ [Attempt config] ->
            (exists evs,
               trace w' =
               trace (emit (Log (AttemptFailed
                                   (default "" (cfg_method config))
                                   (cfg_url config) a r)) w1) ++ evs /\
               Forall (loop_event config) evs /\
               1 <= count is_attempt evs) ->
            exists evs,
              trace w' = trace w ++ evs /\
              Forall (loop_event config) evs /\
              1 <= count is_attempt evs).
  { intros w w1 w' a r H (evs & Htr & Hall & _).
    exists (Attempt config
            :: Log (AttemptFailed (default "" (cfg_method config))
                      (cfg_url config) a r) :: evs).
    rewrite Htr. unfold emit; cbn [trace]. rewrite H, <- !app_assoc.
    split; [reflexivity|]. split; [|rewrite count_cons; cbn; lia].
    constructor; [left; reflexivity|].
    constructor; [right; reflexivity | exact Hall]. }
  induction retriesLeft as [|n IH]; intros errors attemptNumber w;
    rewrite pRetry_from_unfold;
    pose proof (run_request_trace env config w) as Hrun;
    destruct (Http.run_request env config w) as [[a|e] w1]; cbn [snd] in Hrun;
    try (apply Hone; exact Hrun);
    destruct e; try (apply Hone; exact Hrun);
    unfold request_failed at 1, tell; cbn [snd].
  - apply Hlast. exact Hrun.
  - apply Hlast. exact Hrun.
  - eapply Hnext; [exact Hrun | apply IH].
  - eapply Hnext; [exact Hrun | apply IH].
Qed.

(** ** The events of a preparation *)

Lemma preparation_events crawler (j : nat) (hooked : bool) k :
  let pre :=
    sequential_resolution crawler (take j resolver_order)
    ++ (if hooked then [BeforeRequest] else []) in
  count is_attempt pre = 0 /\
  count is_notification pre = 0 /\
  count (is_resolve_start k) pre <= 1 /\
  (j = 4 ->
   count (is_resolve_start k) pre = if configured crawler k then 1 else 0) /\
  (forall t, overlapping [] (pre ++ t) = overlapping [] t).
Proof.
  unfold sequential_resolution, resolver_order, configured.
  destruct j as [|[|[|[|j]]]]; cbn [firstn flat_map]; rewrite ?take_nil;
    destruct (proxy crawler), (userAgent crawler), (headers crawler),
      (auth crawler), hooked, k;
    cbn [is_configured flat_map app];
    (split; [reflexivity|]); (split; [reflexivity|]);
    (split; [vm_compute; lia|]);
    (split; [first [discriminate | intros _; reflexivity]|]);
    intros t; vm_compute; reflexivity.
Qed.

(** ** Traces of retry loops *)

Lemma notification_is_log e :
  is_notification e = true ->
  exists what url a r, e = Log (AttemptFailed what url a r).
Proof.
  destruct e as [| | | | | |[what url a r|]]; try discriminate.
  intros _. exists what, url, a, r. reflexivity.
Qed.

Lemma loop_events_no_resolver config k evs :
  Forall (loop_event config) evs -> count (is_resolve_start k) evs = 0.
Proof.
  induction 1 as [|e evs He _ IH]; [reflexivity|].
  rewrite count_cons, IH.
  destruct He as [->|He]; [reflexivity|].
  apply notification_is_log in He as (what & url & a & r & ->). reflexivity.
Qed.

Lemma loop_events_no_overlap config evs :
  Forall (loop_event config) evs ->
  forall pending, overlapping pending evs = false.
Proof.
  induction 1 as [|e evs He _ IH]; intros pending; [reflexivity|].
  destruct He as [->|He]; [apply IH|].
  apply notification_is_log in He as (what & url & a & r & ->). apply IH.
Qed.

Lemma loop_events_one_config config evs c :
  Forall (loop_event config) evs -> In (Attempt c) evs -> c = config.
Proof.
  intros Hall Hin. rewrite Forall_forall in Hall.
  destruct (Hall (Attempt c)) as [H|H].
  - apply list_elem_of_In. exact Hin.
  - congruence.
  - discriminate.
Qed.

Lemma failing_attempts_unfold config a r :
  failing_attempts config a r =
  Attempt config
  :: Log (AttemptFailed (default "" (cfg_method config)) (cfg_url config) a r)
  :: match r with
     | O => []
     | S n => failing_attempts config (S a) n
     end.
Proof. destruct r; reflexivity. Qed.

Lemma failing_attempts_counts config r :
  forall a,
    count is_attempt (failing_attempts config a r) = S r /\
    count is_notification (failing_attempts config a r) = S r /\
    count is_notification (before_last_attempt (failing_attempts config a r))
    = r.
Proof.
  induction r as [|n IH]; intros a.
  - repeat split; reflexivity.
  - destruct (IH (S a)) as (Ha & Hn & Hb).
    rewrite failing_attempts_unfold.
    rewrite !count_cons, Ha, Hn. cbn [is_attempt is_notification].
    repeat split; try lia.
    cbn [before_last_attempt existsb is_attempt orb].
    rewrite (failing_attempts_unfold config (S a) n).
    cbn [existsb is_attempt orb].
    rewrite <- (failing_attempts_unfold config (S a) n).
    rewrite !count_cons, Hb. cbn. lia.
Qed.

Lemma before_last_attempt_app pre t :
  existsb is_attempt t = true ->
  before_last_attempt (pre ++ t) = pre ++ before_last_attempt t.
Proof.
  intros Ht. induction pre as [|e pre IH]; [reflexivity|].
  cbn. rewrite existsb_app, Ht, orb_true_r, IH. reflexivity.
Qed.

(** ** The retry budget of a request *)

(** C3.  A request with retry budget [r] whose preparation succeeded and
    whose network call fails every time (an error or a timeout, the token
    not being tripped) performs exactly [r + 1] network calls; exactly [r]
    failure notifications are emitted before the last of these calls;
    that last failure is notified too, and then the request ends in
    exactly one rejection, with an error of the attempts.  The events of
    the loop are, [r + 1] times, a network call followed by its
    notification. *)
Theorem C3_always_failing_request :
  forall env crawler url method body httpHeaders w config,
    cancelled w = None ->
    (forall n, transient (network env n config) = true) ->
    fst (prepare crawler url method body httpHeaders w) = Ok config ->
    let r := retry (options crawler) in
    let result := Http.request env crawler url method body httpHeaders w in
    attempts (snd result) = attempts w + (r + 1) /\
    count is_notification
      (before_last_attempt (new_events w (snd result))) = r /\
    notifications (snd result) = notifications w + (r + 1) /\
    (exists e, fst result = Throw e /\ plain e = true) /\
    (exists pre,
       new_events w (snd result) = pre ++ failing_attempts config 1 r /\
       count is_attempt pre = 0 /\ count is_notification pre = 0).
Proof.
  intros env crawler url method body httpHeaders w config Hc Hnet Hprep r.
  subst r.
  destruct (prepare_trace crawler url method body httpHeaders w)
    as (j & hooked & Hw & Hok).
  destruct (Hok config Hprep) as [-> ->]. clear Hok.
  set (pre := sequential_resolution crawler (take 4 resolver_order) ++
              (if is_configured (beforeRequest (provider crawler))
               then [BeforeRequest] else [])) in *.
  destruct (preparation_events crawler 4
              (is_configured (beforeRequest (provider crawler))) RProxy)
    as (Hpa & Hpn & _).
  fold pre in Hpa, Hpn.
  destruct (pRetry_always_fails env config Hnet (retry (options crawler))
              [] 1 (emits pre w) Hc)
    as (e & He & Hloop); [constructor|].
  assert (Hreq : Http.request env crawler url method body httpHeaders w =
                 (Throw e,
                  emits (pre ++ failing_attempts config 1
                                  (retry (options crawler))) w)).
  { rewrite request_prepare. unfold bind.
    destruct (prepare crawler url method body httpHeaders w) as [res w1].
    cbn [fst snd] in Hprep, Hw. subst res w1.
    unfold pRetry. rewrite Hloop, emits_emits. reflexivity. }
  cbv zeta. rewrite Hreq. cbn [fst snd].
  destruct (failing_attempts_counts config (retry (options crawler)) 1)
    as (Ha & Hn & Hb).
  rewrite attempts_emits, notifications_emits, new_events_emits, !count_app.
  rewrite Hpa, Hpn, Ha, Hn.
  repeat split; try lia.
  - rewrite before_last_attempt_app; [|rewrite failing_attempts_unfold;
                                        reflexivity].
    rewrite count_app, Hpn, Hb. reflexivity.
  - exists e. split; [reflexivity | exact He].
  - exists pre. repeat split; assumption.
Qed.

(** C3 on the sample crawler with a budget of 2 retries: three network
    calls, two notifications before the last one. *)
Lemma C3_always_failing_request_witness :
  attempts (snd (Http.request Sample.unreachable (Sample.crawler 2)
                   Sample.page None BUndefined None Sample.running)) = 3 /\
  count is_notification
    (before_last_attempt
       (new_events Sample.running
          (snd (Http.request Sample.unreachable (Sample.crawler 2)
                  Sample.page None BUndefined None Sample.running)))) = 2 /\
  fst (Http.request Sample.unreachable (Sample.crawler 2)
         Sample.page None BUndefined None Sample.running)
  = Throw (Error "ECONNRESET").
Proof.
  destruct (C3_always_failing_request Sample.unreachable (Sample.crawler 2)
              Sample.page None BUndefined None Sample.running Sample.config)
    as (Ha & Hb & _).
  - reflexivity.
  - intros n. reflexivity.
  - vm_compute. reflexivity.
  - split; [exact Ha|]. split; [exact Hb|]. vm_compute. reflexivity.
Defined.

(** ** Resolvers and attempts *)

Lemma count_zero_In p (t : list Event) e :
  count p t = 0 -> In e t -> p e = false.
Proof.
  induction t as [|x t IH]; intros Hc [].
  - subst x. rewrite count_cons in Hc. destruct (p e); [lia | reflexivity].
  - rewrite count_cons in Hc. apply IH; [lia | assumption].
Qed.

Lemma new_events_trace w w' evs :
  trace w' = trace w ++ evs -> new_events w w' = evs.
Proof. intros H. unfold new_events. rewrite H. apply drop_app_length. Qed.

(** A request is a preparation followed, when it succeeds, by a retry
    loop on the one config it produced. *)
Lemma request_events env crawler url method body httpHeaders w :
  exists (j : nat) (hooked : bool) (loop : list Event),
    trace (snd (Http.request env crawler url method body httpHeaders w))
    = trace w
      ++ (sequential_resolution crawler (take j resolver_order)
          ++ (if hooked then [BeforeRequest] else [])) ++ loop /\
    ((loop = [] /\
      exists e,
        fst (Http.request env crawler url method body httpHeaders w) = Throw e)
     \/
     (j = 4 /\ 1 <= count is_attempt loop /\
      exists config,
        fst (prepare crawler url method body httpHeaders w) = Ok config /\
        Forall (loop_event config) loop)).
Proof.
  destruct (prepare_trace crawler url method body httpHeaders w)
    as (j & hooked & Hw & Hok).
  rewrite request_prepare. unfold bind.
  destruct (prepare crawler url method body httpHeaders w) as [[config|e] w1];
    cbn [fst snd] in Hw, Hok; subst w1.
  - destruct (Hok config eq_refl) as [-> ->].
    destruct (pRetry_request_events env config (retry (options crawler)) [] 1
                (emits (sequential_resolution crawler (take 4 resolver_order)
                        ++ (if is_configured (beforeRequest (provider crawler))
                            then [BeforeRequest] else [])) w))
      as (loop & Htr & Hall & Hcount).
    exists 4, (is_configured (beforeRequest (provider crawler))), loop.
    split.
    + unfold pRetry. rewrite Htr. cbn [trace emits].
      rewrite <- !app_assoc. reflexivity.
    + right. split; [reflexivity|]. split; [exact Hcount|].
      exists config. split; [reflexivity | exact Hall].
  - exists j, hooked, []. split.
    + cbn [snd trace emits]. rewrite app_nil_r. reflexivity.
    + left. split; [reflexivity|]. exists e. reflexivity.
Qed.

(** C2, as the code has it.  In every request each resolver is invoked
    at most once, whatever the number of attempts; when the request gets
    as far as the network, each configured resolver has been invoked
    exactly once (and an absent one never), all of this before the first
    network call; and every network call of the request is made with the
    same config, hence with the same resolved proxy, identity, headers
    and auth. *)
Theorem C2_resolvers_once_per_request :
  forall env crawler url method body httpHeaders w k,
    let w' := snd (Http.request env crawler url method body httpHeaders w) in
    invocations k w' <= invocations k w + 1 /\
    (attempts w < attempts w' ->
     invocations k w' =
     invocations k w + (if configured crawler k then 1 else 0)) /\
    (forall c1 c2,
       In (Attempt c1) (new_events w w') ->
       In (Attempt c2) (new_events w w') -> c1 = c2) /\
    (exists pre loop,
       new_events w w' = pre ++ loop /\
       count is_attempt pre = 0 /\
       count (is_resolve_start k) loop = 0).
Proof.
  intros env crawler url method body httpHeaders w k w'. subst w'.
  destruct (request_events env crawler url method body httpHeaders w)
    as (j & hooked & loop & Htr & Hcase).
  destruct (preparation_events crawler j hooked k)
    as (Hpa & _ & Hle & Heq & _).
  set (pre := sequential_resolution crawler (take j resolver_order)
              ++ (if hooked then [BeforeRequest] else [])) in *.
  rewrite (new_events_trace _ _ _ Htr).
  unfold invocations, attempts. rewrite Htr, !count_app.
  assert (Hloop : count (is_resolve_start k) loop = 0 /\
                  (forall c1 c2, In (Attempt c1) loop ->
                                 In (Attempt c2) loop -> c1 = c2) /\
                  (0 < count is_attempt loop -> j = 4)).
  { destruct Hcase as [[-> _] | (-> & _ & config & _ & Hall)].
    - split; [reflexivity|]. split; [intros c1 c2 []|].
      cbn. lia.
    - split; [eapply loop_events_no_resolver; exact Hall|].
      split; [|reflexivity].
      intros c1 c2 H1 H2.
      rewrite (loop_events_one_config _ _ _ Hall H1).
      rewrite (loop_events_one_config _ _ _ Hall H2). reflexivity. }
  destruct Hloop as (Hnone & Hsame & Hfour).
  rewrite Hnone, Hpa.
  split; [lia|]. split; [|split].
  - intros Hlt. rewrite Heq; [lia|]. apply Hfour. lia.
  - intros c1 c2 H1 H2.
    apply in_app_or in H1. apply in_app_or in H2.
    destruct H1 as [H1|H1];
      [apply (count_zero_In _ _ _ Hpa) in H1; discriminate|].
    destruct H2 as [H2|H2];
      [apply (count_zero_In _ _ _ Hpa) in H2; discriminate|].
    exact (Hsame c1 c2 H1 H2).
  - exists pre, loop. repeat split; assumption.
Qed.

(** C2, as stated, fails: with a retry budget of 1 and a network that is
    down, the request makes two attempts, yet the proxy resolver and the
    identity resolver are each invoked once, not twice, and both attempts
    carry the proxy and the user agent of the first resolution. *)
Lemma C2_resolvers_per_attempt_counterexample :
  attempts (snd (Http.request Sample.unreachable (Sample.crawler 1)
                   Sample.page None BUndefined None Sample.running)) = 2 /\
  invocations RProxy
    (snd (Http.request Sample.unreachable (Sample.crawler 1)
            Sample.page None BUndefined None Sample.running)) = 1 /\
  invocations RUserAgent
    (snd (Http.request Sample.unreachable (Sample.crawler 1)
            Sample.page None BUndefined None Sample.running)) = 1 /\
  filter (fun e => is_attempt e = true)
    (trace (snd (Http.request Sample.unreachable (Sample.crawler 1)
                   Sample.page None BUndefined None Sample.running)))
  = [Attempt Sample.config; Attempt Sample.config].
Proof. vm_compute. repeat split; reflexivity. Qed.

(** ** Resolvers run one after the other *)

(** C9 fails on the code.  Each element of the array handed to
    [Promise.all] is itself awaited (lines 116-119), so a resolver is
    called only after the promise of the previous one has settled: in
    no request do two resolver invocations overlap.  On the sample
    crawler the proxy resolver has settled before the identity resolver
    is called, where the specification has both called first. *)
Theorem C9_resolvers_do_not_overlap :
  (forall env crawler url method body httpHeaders w,
     overlapping []
       (new_events w
          (snd (Http.request env crawler url method body httpHeaders w)))
     = false) /\
  take 4 (trace (snd (Http.request Sample.unreachable (Sample.crawler 0)
                        Sample.page None BUndefined None Sample.running)))
  = [ResolveStart RProxy; ResolveEnd RProxy;
     ResolveStart RUserAgent; ResolveEnd RUserAgent] /\
  trace (snd (resolve_concurrently_spec (Sample.crawler 0) Sample.page "GET"
                BUndefined Sample.running))
  = [ResolveStart RProxy; ResolveStart RUserAgent;
     ResolveEnd RProxy; ResolveEnd RUserAgent] /\
  overlapping []
    (trace (snd (resolve_concurrently_spec (Sample.crawler 0) Sample.page
                   "GET" BUndefined Sample.running))) = true.
Proof.
  split; [|vm_compute; repeat split; reflexivity].
  intros env crawler url method body httpHeaders w.
  destruct (request_events env crawler url method body httpHeaders w)
    as (j & hooked & loop & Htr & Hcase).
  rewrite (new_events_trace _ _ _ Htr).
  destruct (preparation_events crawler j hooked RProxy) as (_ & _ & _ & _ & H).
  rewrite H.
  destruct Hcase as [[-> _] | (_ & _ & config & _ & Hall)]; [reflexivity|].
  eapply loop_events_no_overlap. exact Hall.
Qed.

(** ** The callbacks of a response *)

Lemma inherit_options_lookup response opts key :
  Response.inherit_options response opts !! key =
  match or_empty opts !! key with
  | Some v => Some v
  | None =>
      if decide (key = "proxy") then Some (inherited_proxy response)
      else if decide (key = "headers")
           then Some (OHeaders
                        (delete "Accept" (cfg_headers (res_config response))))
           else None
  end.
Proof.
  unfold Response.inherit_options. rewrite lookup_spread.
  destruct (or_empty opts !! key); [reflexivity|].
  rewrite lookup_insert. destruct (decide ("proxy" = key)) as [<-|Hp].
  - reflexivity.
  - destruct (decide (key = "proxy")) as [->|_]; [congruence|].
    rewrite lookup_singleton.
    destruct (decide ("headers" = key)) as [<-|Hh]; [reflexivity|].
    destruct (decide (key = "headers")) as [->|_]; [congruence|reflexivity].
Qed.

(** C8.  A call of [follow] with a non-empty argument while the crawler
    is active pushes exactly one task, a request: the queue grows by one.
    Its headers are the caller's headers on top of a [Reference] header
    holding the url of the originating request, so [Reference] is that
    url unless the caller gives one.  A bare url makes a GET task without
    body whose only header is [Reference]; a request descriptor gives the
    task its url, method and body. *)
Theorem C8_follow_pushes_one_request :
  forall (self : Http.Response) (nextUrl : Url) (w : World),
    active w = true ->
    truthy_url (Some nextUrl) = true ->
    exists task h,
      Response.follow self (Some nextUrl) w
      = set_scheduler (scheduler w ++ [task]) w /\
      Scheduler.size (scheduler (Response.follow self (Some nextUrl) w))
      = S (Scheduler.size (scheduler w)) /\
      task_type task = TRequest /\
      task_headers task = Some h /\
      (forall key,
         h !! key =
         match caller_headers nextUrl !! key with
         | Some v => Some v
         | None =>
             if decide (key = "Reference")
             then Some (HStr (cfg_url (res_config (Http.response self))))
             else None
         end) /\
      match nextUrl with
      | UrlString s =>
          task_url task = s /\ task_method task = Some "GET" /\
          task_body task = BUndefined
      | UrlObject u =>
          task_url task = uc_url u /\ task_method task = uc_method u /\
          task_body task = uc_body u
      end.
Proof.
  intros self nextUrl w Hactive Htruthy.
  unfold Response.follow. rewrite Hactive, Htruthy. cbn [andb].
  destruct nextUrl as [s|u]; eexists; eexists;
    (split; [reflexivity|]);
    (split; [unfold Scheduler.size, set_scheduler, Scheduler.push;
             cbn [scheduler]; rewrite length_app; cbn; lia|]);
    (split; [reflexivity|]); (split; [reflexivity|]);
    (split; [|repeat split]); intros key; cbn [caller_headers].
  - rewrite lookup_empty, lookup_singleton.
    destruct (decide ("Reference" = key)) as [<-|H]; [reflexivity|].
    destruct (decide (key = "Reference")) as [->|_]; [congruence|reflexivity].
  - rewrite lookup_spread.
    destruct (or_empty (uc_headers u) !! key); [reflexivity|].
    rewrite lookup_singleton.
    destruct (decide ("Reference" = key)) as [<-|H]; [reflexivity|].
    destruct (decide (key = "Reference")) as [->|_]; [congruence|reflexivity].
Qed.

(** C8 on the sample response: following a bare url. *)
Lemma C8_follow_pushes_one_request_witness :
  active Sample.running = true /\
  exists task,
    scheduler (Response.follow (Http.createResponse Sample.answer)
                 (Some (UrlString "https://example.org/page/2"))
                 Sample.running) = [task] /\
    task_type task = TRequest /\
    task_url task = "https://example.org/page/2" /\
    task_method task = Some "GET" /\
    task_body task = BUndefined /\
    exists h, task_headers task = Some h /\
              h !! "Reference" = Some (HStr Sample.page).
Proof.
  split; [reflexivity|].
  destruct (C8_follow_pushes_one_request (Http.createResponse Sample.answer)
              (UrlString "https://example.org/page/2") Sample.running
              eq_refl eq_refl)
    as (task & h & Hfollow & _ & Htype & Hh & Hkeys & Hurl & Hmethod & Hbody).
  exists task. rewrite Hfollow.
  repeat (split; [first [reflexivity | assumption]|]).
  exists h. split; [exact Hh|]. rewrite Hkeys. reflexivity.
Defined.

(** C7.  [downloadInQueue] pushes exactly one download task (GET, the
    given url and filepath) and starts no download itself.  The options
    of the task are the caller's options on top of the inherited ones:
    each key of the caller's options keeps the caller's value; otherwise
    [proxy] is the proxy of the originating request and [headers] are the
    headers of the originating request without [Accept], whether or not
    that request had an [Accept] header; there is no other key. *)
Theorem C7_queue_download_inherits :
  forall (self : Http.Response) (url filepath : string)
         (opts : option DownloadOptions) (w : World),
    exists o,
      Response.downloadInQueue self url filepath opts w
      = set_scheduler (scheduler w ++ [download_task url filepath o]) w /\
      (forall key,
         o !! key =
         match or_empty opts !! key with
         | Some v => Some v
         | None =>
             if decide (key = "proxy")
             then Some (inherited_proxy (Http.response self))
             else if decide (key = "headers")
                  then Some (OHeaders
                               (delete "Accept"
                                  (cfg_headers
                                     (res_config (Http.response self)))))
                  else None
         end) /\
      delete "Accept" (cfg_headers (res_config (Http.response self)))
        !! "Accept" = None /\
      (forall key,
         key <> "Accept" ->
         delete "Accept" (cfg_headers (res_config (Http.response self)))
           !! key
         = cfg_headers (res_config (Http.response self)) !! key) /\
      download_attempts (Response.downloadInQueue self url filepath opts w)
      = download_attempts w.
Proof.
  intros self url filepath opts w.
  exists (Response.inherit_options (Http.response self) opts).
  split; [reflexivity|].
  split; [intros key; apply inherit_options_lookup|].
  split; [apply lookup_delete_eq|].
  split; [|reflexivity].
  intros key Hkey. apply lookup_delete_ne. congruence.
Qed.

(** C10.  When the caller's options of [downloadInQueue] or [download]
    have a [headers] key, the [headers] of the resulting options are the
    caller's value as it is: nothing of the inherited headers is merged
    in, and an [Accept] header of the caller stays. *)
Theorem C10_caller_headers_replace_inherited :
  forall env crawler (self : Http.Response) (url filepath : string)
         (opts : DownloadOptions) (v : OptionValue) (w : World),
    opts !! "headers" = Some v ->
    (exists o,
       scheduler (Response.downloadInQueue self url filepath (Some opts) w)
       = scheduler w ++ [download_task url filepath o] /\
       o !! "headers" = Some v) /\
    (exists o,
       Response.download env crawler self url filepath (Some opts)
       = Http.downloadResource env crawler url filepath (Some o) /\
       o !! "headers" = Some v).
Proof.
  intros env crawler self url filepath opts v w Hv.
  split; exists (Response.inherit_options (Http.response self) (Some opts));
    (split; [reflexivity|]);
    rewrite inherit_options_lookup; cbn [or_empty]; rewrite Hv; reflexivity.
Qed.

(** C10 on the sample response, whose request had a [User-Agent]: the
    caller asks for images and the task has that one header. *)
Lemma C10_caller_headers_replace_inherited_witness :
  cfg_headers (res_config Sample.answer) !! "User-Agent"
  = Some (HStr "bot/0") /\
  exists o,
    scheduler (Response.downloadInQueue (Http.createResponse Sample.answer)
                 Sample.image Sample.file
                 (Some {[ "headers" :=
                            OHeaders {[ "Accept" := HStr "image/*" ]} ]})
                 Sample.running)
    = [download_task Sample.image Sample.file o] /\
    o !! "headers" = Some (OHeaders {[ "Accept" := HStr "image/*" ]}).
Proof.
  split; [reflexivity|].
  destruct (C10_caller_headers_replace_inherited Sample.unreachable
              (Sample.crawler 0) (Http.createResponse Sample.answer)
              Sample.image Sample.file
              {[ "headers" := OHeaders {[ "Accept" := HStr "image/*" ]} ]}
              (OHeaders {[ "Accept" := HStr "image/*" ]}) Sample.running
              (lookup_singleton_eq _ _)) as [(o & Hq & Ho) _].
  exists o. split; [exact Hq | exact Ho].
Defined.

(** C1 fails on the code.  With [crawler.active] false, [follow] leaves
    the world as it is, but [retry] and [downloadInQueue], which do not
    look at the flag, each push a task: the queue grows by one. *)
Theorem C1_inactive_retry_and_queue_download_push :
  forall (self : Http.Response) (url filepath : string)
         (opts : option DownloadOptions) (w : World),
    active w = false ->
    (forall nextUrl, Response.follow self nextUrl w = w) /\
    Scheduler.size (scheduler (Response.retry self w))
    = S (Scheduler.size (scheduler w)) /\
    Scheduler.size
      (scheduler (Response.downloadInQueue self url filepath opts w))
    = S (Scheduler.size (scheduler w)).
Proof.
  intros self url filepath opts w Hactive.
  split; [|split].
  - intros nextUrl. unfold Response.follow. rewrite Hactive. reflexivity.
  - unfold Response.retry, Scheduler.size, Scheduler.push, set_scheduler.
    cbn [scheduler]. rewrite length_app. cbn. lia.
  - unfold Response.downloadInQueue, Http.download, Scheduler.size,
      Scheduler.push, set_scheduler.
    cbn [scheduler]. rewrite length_app. cbn. lia.
Qed.

(** C1 on a stopped crawler with an empty queue. *)
Lemma C1_inactive_retry_and_queue_download_push_witness :
  active Sample.stopped = false /\
  Scheduler.size (scheduler Sample.stopped) = 0 /\
  Scheduler.size
    (scheduler (Response.retry (Http.createResponse Sample.answer)
                  Sample.stopped)) = 1 /\
  Scheduler.size
    (scheduler (Response.downloadInQueue (Http.createResponse Sample.answer)
                  Sample.image Sample.file None Sample.stopped)) = 1.
Proof.
  split; [reflexivity|]. split; [reflexivity|].
  destruct (C1_inactive_retry_and_queue_download_push
              (Http.createResponse Sample.answer) Sample.image Sample.file
              None Sample.stopped eq_refl) as (_ & Hretry & Hqueue).
  split; [exact Hretry | exact Hqueue].
Defined.

(** ** Download attempts *)

Lemma outer_settled_stays ev s r :
  outer s = Some r -> outer (on_stream_event ev s) = Some r.
Proof.
  intros H.
  destruct ev; cbn;
    repeat match goal with
           | |- context [if ?b then _ else _] => destruct b
           | |- context [match error s with _ => _ end] => destruct (error s)
           end;
    cbn; rewrite ?H; try reflexivity; exact H.
Qed.

Lemma observe_fold evs :
  forall s w,
    fst (Http.observe evs s w)
    = foldl (fun s ev => on_stream_event ev s) s evs.
Proof. induction evs as [|ev evs IH]; intros s w; [reflexivity|apply IH]. Qed.

Lemma fold_outer_settled evs :
  forall s r,
    outer s = Some r ->
    outer (foldl (fun s ev => on_stream_event ev s) s evs) = Some r.
Proof.
  induction evs as [|ev evs IH]; intros s r H; [exact H|].
  cbn. apply IH. apply outer_settled_stays. exact H.
Qed.

Lemma run_download_outcome env url opts w :
  fst (Http.run_download env url opts w)
  = stream_outcome (streams env (download_attempts w) url opts).
Proof.
  unfold Http.run_download, stream_outcome.
  pose proof (observe_fold (streams env (download_attempts w) url opts)
                streams_start (emit (DownloadAttempt url opts) w)) as H.
  destruct (Http.observe _ _ _) as [s w2]. cbn [fst] in H. rewrite <- H.
  destruct (outer s); reflexivity.
Qed.

(** C5.  In a download attempt whose first event is an error of one
    stream and in which the other stream fails later, whatever else
    happens in between and afterwards, the attempt rejects with the first
    error: the error of the stream that failed second is not reported. *)
Theorem C5_first_stream_error_wins :
  forall env url opts w m1 m2 mid rest,
    streams env (download_attempts w) url opts
    = SourceError m1 :: mid ++ DestError m2 :: rest \/
    streams env (download_attempts w) url opts
    = DestError m1 :: mid ++ SourceError m2 :: rest ->
    fst (Http.run_download env url opts w) = Throw (Error m1).
Proof.
  intros env url opts w m1 m2 mid rest H.
  rewrite run_download_outcome. unfold stream_outcome.
  destruct H as [-> | ->]; cbn [foldl];
    erewrite fold_outer_settled; reflexivity.
Qed.

(** C5 on the sample download: the write stream fails first. *)
Lemma C5_first_stream_error_wins_witness :
  streams Sample.unreachable (download_attempts Sample.running)
    Sample.image None
  = [DestError "EACCES"; SourceError "ECONNRESET"] /\
  fst (Http.run_download Sample.unreachable Sample.image None Sample.running)
  = Throw (Error "EACCES").
Proof.
  split; [reflexivity|].
  apply (C5_first_stream_error_wins Sample.unreachable Sample.image None
           Sample.running "EACCES" "ECONNRESET" [] []).
  right. reflexivity.
Defined.

(** The handler of the source stream is not guarded by [!error]: when
    the write stream fails first, [reject] is called a second time and the
    variable [error] is overwritten, but the promise, settled by the
    first call, keeps the first error. *)
Lemma second_reject_is_ignored m1 m2 :
  let s := on_stream_event (SourceError m2)
             (on_stream_event (DestError m1) streams_start) in
  rejects s = [m1; m2] /\ error s = Some m2 /\
  inner s = Some (Throw (Error m1)) /\ outer s = Some (Throw (Error m1)).
Proof. cbn. repeat split; reflexivity. Qed.

(** ** Cancellation *)

Lemma fold_skips_cancel evs :
  forall s,
    foldl (fun s ev => on_stream_event ev s) s
      (filter (fun ev => is_cancel_call ev = false) evs)
    = foldl (fun s ev => on_stream_event ev s) s evs.
Proof.
  induction evs as [|ev evs IH]; intros s; [reflexivity|].
  rewrite filter_cons. destruct ev; cbn; apply IH.
Qed.

(** C4, as the code has it.  A network call of a request made with a
    tripped token, or during which [cancel] is called, is rejected with
    the [Cancel] of the token, and the token is tripped afterwards.  A
    download attempt is not connected to the token: its outcome is what
    its stream events and the timer make of it, the same with the token
    tripped beforehand and the same when the calls of [cancel] during
    the attempt are left out. *)
Theorem C4_cancel_rejects_requests_not_downloads :
  forall env config url opts w,
    cancelled w <> None \/
    network env (attempts w) config = CancelInFlight ->
    (exists m,
       fst (Http.run_request env config w) = Throw (Cancel m) /\
       cancelled (snd (Http.run_request env config w)) = Some m) /\
    fst (Http.run_download env url opts (Http.cancel w))
    = fst (Http.run_download env url opts w) /\
    fst (Http.run_download env url opts w)
    = stream_outcome
        (filter (fun ev => is_cancel_call ev = false)
           (streams env (download_attempts w) url opts)).
Proof.
  intros env config url opts w H. split; [|split].
  - unfold Http.run_request, bind, Http.axios_request, Http.cancel, trip.
    cbn [emit cancelled].
    destruct (cancelled w) as [m|] eqn:Hc.
    + exists m. cbn. split; [reflexivity | exact Hc].
    + destruct H as [H|H]; [congruence|]. rewrite H.
      exists cancel_reason. cbn. split; reflexivity.
  - rewrite !run_download_outcome.
    unfold Http.cancel, trip, download_attempts.
    destruct (cancelled w); reflexivity.
  - rewrite run_download_outcome. unfold stream_outcome.
    rewrite fold_skips_cancel. reflexivity.
Qed.

(** C4 on the sample environment in which [cancel] is called while the
    operation is in flight. *)
Lemma C4_cancel_rejects_requests_not_downloads_witness :
  network Sample.cancelling (attempts Sample.running) Sample.config
  = CancelInFlight /\
  fst (Http.run_request Sample.cancelling Sample.config Sample.running)
  = Throw (Cancel "Operation canceled by the user.") /\
  fst (Http.run_download Sample.cancelling Sample.image None
         (Http.cancel Sample.running))
  = fst (Http.run_download Sample.cancelling Sample.image None Sample.running).
Proof.
  split; [reflexivity|].
  destruct (C4_cancel_rejects_requests_not_downloads Sample.cancelling
              Sample.config Sample.image None Sample.running
              (or_intror eq_refl)) as ((m & Hrun & Htoken) & Hsame & _).
  split; [|exact Hsame].
  vm_compute in Htoken. injection Htoken as <-. exact Hrun.
Defined.

(** C4, as stated, fails for downloads: [cancel] is called while the
    download is in flight and trips the token, yet the attempt, and with
    it the whole download, resolves; a download started after the token
    was tripped resolves as well. *)
Lemma C4_download_ignores_cancel_counterexample :
  streams Sample.cancelling 0 Sample.image None = [CancelCalled; DestFinish] /\
  Http.run_download Sample.cancelling Sample.image None Sample.running
  = (Ok tt,
     {| active := true; scheduler := [];
        cancelled := Some "Operation canceled by the user.";
        trace := [DownloadAttempt Sample.image None] |}) /\
  fst (Http.downloadResource Sample.cancelling (Sample.crawler 0)
         Sample.image Sample.file None Sample.running) = Ok tt /\
  fst (Http.downloadResource Sample.cancelling (Sample.crawler 0)
         Sample.image Sample.file None (Http.cancel Sample.running)) = Ok tt.
Proof. vm_compute. repeat split; reflexivity. Qed.

(** The retry loop does not retry a cancelled request: the [Cancel] is
    not an [Error], so p-retry rejects at once with a [TypeError] that
    quotes it. *)
Lemma request_cancelled_not_retried env config retries w m :
  cancelled w = Some m ->
  pRetry (Http.run_request env config) retries (request_failed config) w
  = (Throw (TypeError (non_error_message (Cancel m))),
     emits [Attempt config] w).
Proof.
  intros Hc. unfold pRetry. rewrite pRetry_from_unfold.
  unfold Http.run_request, bind, Http.axios_request. cbn [emit cancelled].
  rewrite Hc. reflexivity.
Qed.

(** ** The headers a request is sent with *)

Lemma invocations_emit_other k e w :
  is_resolve_start k e = false -> invocations k (emit e w) = invocations k w.
Proof.
  intros H. rewrite emit_emits, invocations_emits, count_cons, H.
  cbn. lia.
Qed.

(** Without a [beforeRequest] hook, the config of a request carries
    [merge_headers] of what the headers resolver and the identity
    resolver answered. *)
Lemma request_config_headers crawler url method body httpHeaders w config :
  beforeRequest (provider crawler) = None ->
  fst (prepare crawler url method body httpHeaders w) = Ok config ->
  exists _headers _userAgent,
    answer_of RHeaders (headers crawler) (Some ∅) url (default "GET" method)
      body w = Ok _headers /\
    answer_of RUserAgent (userAgent crawler) None url (default "GET" method)
      body w = Ok _userAgent /\
    cfg_headers config
    = Http.merge_headers crawler url httpHeaders _headers _userAgent.
Proof.
  intros Hhook.
  unfold prepare, Http.resolve, Http.call_resolve, Http.await_promise,
    answer_of; unfold bind, ret; cbv beta iota zeta; cbn [source settles].
  rewrite Hhook.
  destruct (proxy crawler) as [rp|];
    [destruct (rp _ _ _ _) as [vp|ep]|]; [| discriminate |];
  (destruct (userAgent crawler) as [ru|];
    [rewrite ?invocations_emit_other by reflexivity;
     destruct (ru _ _ _ _) as [vu|eu]|]; [| discriminate |]);
  (destruct (headers crawler) as [rh|];
    [rewrite ?invocations_emit_other by reflexivity;
     destruct (rh _ _ _ _) as [vh|eh]|]; [| discriminate |]);
  (destruct (auth crawler) as [ra|];
    [destruct (ra _ _ _ _) as [va|ea]|]; [| discriminate |]);
  cbn [fst]; intros [= <-]; eexists; eexists;
    (split; [reflexivity|]); (split; reflexivity).
Qed.

(** * Further properties of the module *)

(** ** What an execution leaves alone *)

Lemma undisturbed_refl w : undisturbed w w.
Proof. repeat split; auto. Qed.

Lemma undisturbed_trans w1 w2 w3 :
  undisturbed w1 w2 -> undisturbed w2 w3 -> undisturbed w1 w3.
Proof.
  intros (Ha & Hs & Hc) (Ha' & Hs' & Hc').
  repeat split; [congruence | congruence | auto].
Qed.

Lemma undisturbed_emits evs w : undisturbed w (emits evs w).
Proof. repeat split; auto. Qed.

Lemma undisturbed_emit e w : undisturbed w (emit e w).
Proof. repeat split; auto. Qed.

Lemma undisturbed_cancel w : undisturbed w (Http.cancel w).
Proof.
  unfold Http.cancel, trip.
  destruct (cancelled w) eqn:H; repeat split; auto; cbn; congruence.
Qed.

(** A retry loop leaves alone what its attempts leave alone. *)
Lemma pRetry_undisturbed {A} (run : M A) what url :
  (forall w, undisturbed w (snd (run w))) ->
  forall retriesLeft errors attemptNumber w,
    undisturbed w
      (snd (pRetry_from run (notify_failed what url) errors attemptNumber
              retriesLeft w)).
Proof.
  intros Hrun.
  induction retriesLeft as [|n IH]; intros errors attemptNumber w;
    rewrite pRetry_from_unfold;
    pose proof (Hrun w) as Hw;
    destruct (run w) as [[a|e] w1]; cbn [snd] in Hw; try exact Hw;
    destruct e; try exact Hw; unfold notify_failed at 1, tell; cbn [snd];
    try (eapply undisturbed_trans; [exact Hw | apply undisturbed_emit]);
    (eapply undisturbed_trans; [|apply IH]);
    (eapply undisturbed_trans; [exact Hw | apply undisturbed_emit]).
Qed.

Lemma run_request_undisturbed env config w :
  undisturbed w (snd (Http.run_request env config w)).
Proof.
  unfold Http.run_request, bind, Http.axios_request.
  destruct (cancelled (emit (Attempt config) w)) eqn:Hc; cbn [snd].
  - apply undisturbed_emit.
  - destruct (network env (attempts w) config); cbn [snd];
      try apply undisturbed_emit.
    eapply undisturbed_trans; [apply undisturbed_emit|apply undisturbed_cancel].
Qed.

Lemma observe_undisturbed evs :
  forall s w, undisturbed w (snd (Http.observe evs s w)).
Proof.
  induction evs as [|ev evs IH]; intros s w; [apply undisturbed_refl|].
  cbn [Http.observe]. eapply undisturbed_trans; [|apply IH].
  destruct ev; try apply undisturbed_refl. apply undisturbed_cancel.
Qed.

Lemma run_download_undisturbed env url opts w :
  undisturbed w (snd (Http.run_download env url opts w)).
Proof.
  unfold Http.run_download.
  pose proof (observe_undisturbed (streams env (download_attempts w) url opts)
                streams_start (emit (DownloadAttempt url opts) w)) as H.
  destruct (Http.observe _ _ _) as [s w2]. cbn [snd] in H.
  eapply undisturbed_trans; [apply undisturbed_emit|].
  destruct (outer s); exact H.
Qed.

(** X1.  A request, whatever the resolvers, the hook and the network
    do, never changes [crawler.active], never pushes to or takes from
    the queue of the scheduler, and never resets a tripped cancel token:
    the reason of the token stays the one it was tripped with. *)
Theorem request_leaves_crawler_alone :
  forall env crawler url method body httpHeaders w,
    let w' := snd (Http.request env crawler url method body httpHeaders w) in
    active w' = active w /\
    scheduler w' = scheduler w /\
    (forall reason, cancelled w = Some reason -> cancelled w' = Some reason).
Proof.
  intros env crawler url method body httpHeaders w w'. subst w'.
  change (undisturbed w
            (snd (Http.request env crawler url method body httpHeaders w))).
  rewrite request_prepare. unfold bind.
  destruct (prepare_trace crawler url method body httpHeaders w)
    as (j & hooked & Hw & _).
  destruct (prepare crawler url method body httpHeaders w) as [[config|e] w1];
    cbn [snd] in Hw; subst w1; [|apply undisturbed_emits].
  eapply undisturbed_trans; [apply undisturbed_emits|].
  apply (pRetry_undisturbed (Http.run_request env config)
           (default "" (cfg_method config)) (cfg_url config)
           (run_request_undisturbed env config)).
Qed.

Lemma downloadResource_undisturbed env crawler url filepath opts w :
  undisturbed w (snd (Http.downloadResource env crawler url filepath opts w)).
Proof.
  unfold Http.downloadResource, bind, catch_rethrow.
  destruct (ensureDirFails env filepath); cbn [snd];
    [apply undisturbed_emit|].
  pose proof (pRetry_undisturbed (Http.run_download env url opts)
                "download" url (run_download_undisturbed env url opts)
                (retry (options crawler)) [] 1
                (emit (EnsureDir filepath) w)) as H.
  unfold pRetry.
  change (fun (attemptNumber retriesLeft : nat) (_ : JsError) =>
            tell (Log (AttemptFailed "download" url attemptNumber
                         retriesLeft)))
    with (notify_failed "download" url).
  destruct (pRetry_from _ _ _ _ _ _) as [[a|e] w1]; cbn [snd] in H |- *.
  - eapply undisturbed_trans; [apply undisturbed_emit | exact H].
  - unfold tell. cbn [snd].
    eapply undisturbed_trans; [apply undisturbed_emit|].
    eapply undisturbed_trans; [exact H | apply undisturbed_emit].
Qed.

(** X2.  The inline [$.download] (like [downloadResource] itself)
    bypasses the scheduler: whatever happens to the streams, the queue
    and [crawler.active] are the same afterwards, and a tripped cancel
    token stays tripped. *)
Theorem inline_download_bypasses_queue :
  forall env crawler (self : Http.Response) url filepath opts w,
    let w' := snd (Response.download env crawler self url filepath opts w) in
    active w' = active w /\
    scheduler w' = scheduler w /\
    (forall reason, cancelled w = Some reason -> cancelled w' = Some reason).
Proof.
  intros env crawler self url filepath opts w.
  apply downloadResource_undisturbed.
Qed.

(** ** The accounts of a retry loop *)

Lemma notify_failed_run what url attemptNumber retriesLeft e w :
  notify_failed what url attemptNumber retriesLeft e w
  = (Ok tt, emit (Log (AttemptFailed what url attemptNumber retriesLeft)) w).
Proof. reflexivity. Qed.

(** Attempts and notifications of a retry loop whose [run] adds one
    attempt event to the trace: at least one attempt and at most one more
    than the budget; a resolved loop has notified every attempt but the
    last; a loop rejected with an ordinary error or a timeout has used
    the whole budget and notified every attempt; a loop rejected
    otherwise was cut short by its last attempt, which is not notified. *)
Lemma pRetry_accounting {A} (run : M A) (is_att : Event -> bool) what url :
  (forall l, is_att (Log l) = false) ->
  (forall w, exists e,
      trace (snd (run w)) = trace w ++ [e] /\
      is_att e = true /\ is_notification e = false) ->
  forall retriesLeft errors attemptNumber w,
    Forall (fun e => plain e = true) errors ->
    exists evs,
      trace (snd (pRetry_from run (notify_failed what url) errors
                    attemptNumber retriesLeft w)) = trace w ++ evs /\
      Forall (fun e => is_att e = true \/ is_notification e = true) evs /\
      1 <= count is_att evs <= S retriesLeft /\
      match fst (pRetry_from run (notify_failed what url) errors
                   attemptNumber retriesLeft w) with
      | Ok _ => count is_att evs = count is_notification evs + 1
      | Throw e =>
          if plain e
          then count is_att evs = S retriesLeft /\
               count is_notification evs = S retriesLeft
          else count is_att evs = count is_notification evs + 1
      end.
Proof.
  intros Hlog Hrun.
  assert (Hone : forall (w w1 : World) e0 r,
            trace w1 = trace w ++ [e0] -> is_att e0 = true ->
            is_notification e0 = false ->
            exists evs,
              trace w1 = trace w ++ evs /\
              Forall (fun e => is_att e = true \/ is_notification e = true)
                evs /\
              1 <= count is_att evs <= S r /\
              count is_att evs = count is_notification evs + 1).
  { intros w w1 e0 r Htr Ha Hn. exists [e0]. split; [exact Htr|].
    split; [constructor; [left; exact Ha | constructor]|].
    rewrite !count_cons, Ha, Hn. cbn. lia. }
  induction retriesLeft as [|n IH]; intros errors attemptNumber w Herr;
    rewrite pRetry_from_unfold;
    destruct (Hrun w) as (e0 & Htr & Ha & Hn);
    destruct (run w) as [[a|e] w1]; cbn [snd] in Htr.
  - destruct (Hone w w1 e0 0 Htr Ha Hn) as (evs & H1 & H2 & H3 & H4).
    exists evs. cbn [fst snd]. auto.
  - assert (Hcut : forall m : string,
              exists evs,
                trace w1 = trace w ++ evs /\
                Forall (fun e => is_att e = true \/ is_notification e = true)
                  evs /\
                1 <= count is_att evs <= 1 /\
                (if plain (TypeError m)
                 then count is_att evs = 1 /\ count is_notification evs = 1
                 else count is_att evs = count is_notification evs + 1)).
    { intros m. destruct (Hone w w1 e0 0 Htr Ha Hn)
        as (evs & H1 & H2 & H3 & H4).
      exists evs. cbn [plain]. auto. }
    assert (Hend : forall e : JsError,
              plain e = true ->
              exists evs,
                trace (emit (Log (AttemptFailed what url attemptNumber 0)) w1)
                = trace w ++ evs /\
                Forall (fun e => is_att e = true \/ is_notification e = true)
                  evs /\
                1 <= count is_att evs <= 1 /\
                (if plain (mainError e (errors ++ [e]))
                 then count is_att evs = 1 /\ count is_notification evs = 1
                 else count is_att evs = count is_notification evs + 1)).
    { intros e' He'.
      exists [e0; Log (AttemptFailed what url attemptNumber 0)].
      unfold emit; cbn [trace]. rewrite Htr, <- app_assoc.
      split; [reflexivity|].
      split; [constructor; [left; exact Ha|];
              constructor; [right; reflexivity | constructor]|].
      rewrite mainError_plain;
        [| exact He'
         | apply Forall_app; split; [exact Herr | repeat constructor; exact He']].
      rewrite !count_cons, Ha, Hn, Hlog. cbn. lia. }
    destruct e; rewrite ?notify_failed_run; cbn [fst snd];
      first [apply Hcut | apply Hend; reflexivity].
  - destruct (Hone w w1 e0 (S n) Htr Ha Hn) as (evs & H1 & H2 & H3 & H4).
    exists evs. cbn [fst snd]. auto.
  - assert (Hcut : forall m : string,
              exists evs,
                trace w1 = trace w ++ evs /\
                Forall (fun e => is_att e = true \/ is_notification e = true)
                  evs /\
                1 <= count is_att evs <= S (S n) /\
                (if plain (TypeError m)
                 then count is_att evs = S (S n) /\
                      count is_notification evs = S (S n)
                 else count is_att evs = count is_notification evs + 1)).
    { intros m. destruct (Hone w w1 e0 (S n) Htr Ha Hn)
        as (evs & H1 & H2 & H3 & H4).
      exists evs. cbn [plain]. auto. }
    assert (Hnext : forall e : JsError,
              plain e = true ->
              let w2 := emit (Log (AttemptFailed what url attemptNumber (S n)))
                          w1 in
              let loop := pRetry_from run (notify_failed what url)
                            (errors ++ [e]) (S attemptNumber) n w2 in
              exists evs,
                trace (snd loop) = trace w ++ evs /\
                Forall (fun e => is_att e = true \/ is_notification e = true)
                  evs /\
                1 <= count is_att evs <= S (S n) /\
                match fst loop with
                | Ok _ => count is_att evs = count is_notification evs + 1
                | Throw e =>
                    if plain e
                    then count is_att evs = S (S n) /\
                         count is_notification evs = S (S n)
                    else count is_att evs = count is_notification evs + 1
                end).
    { intros e' He' w2 loop.
      destruct (IH (errors ++ [e']) (S attemptNumber) w2)
        as (evs & H1 & H2 & H3 & H4).
      { apply Forall_app. split; [exact Herr | repeat constructor; exact He']. }
      fold loop in H1, H4.
      exists (e0 :: Log (AttemptFailed what url attemptNumber (S n)) :: evs).
      rewrite H1. subst w2. unfold emit; cbn [trace].
      rewrite Htr, <- !app_assoc. split; [reflexivity|].
      split; [constructor; [left; exact Ha|];
              constructor; [right; reflexivity | exact H2]|].
      rewrite !count_cons, Ha, Hn, Hlog. cbn [is_notification].
      split; [lia|].
      destruct (fst loop) as [x|e'']; [lia|].
      destruct (plain e''); lia. }
    destruct e; rewrite ?notify_failed_run; cbn [fst snd];
      first [apply Hcut | apply Hnext; reflexivity].
Qed.

Lemma run_request_one env config w :
  exists e,
    trace (snd (Http.run_request env config w)) = trace w ++ [e] /\
    is_attempt e = true /\ is_notification e = false.
Proof.
  exists (Attempt config). split; [apply run_request_trace|].
  split; reflexivity.
Qed.

(** X3.  Whatever the network does, a request with retry budget [r]
    makes at most [r + 1] network calls and logs at most one failure
    notification per call; a request that resolves has made at least one
    call and logged a notification for every call but the last. *)
Theorem request_attempts_bounded :
  forall env crawler url method body httpHeaders w,
  exists a n,
    attempts (snd (Http.request env crawler url method body httpHeaders w))
    = attempts w + a /\
    notifications (snd (Http.request env crawler url method body httpHeaders w))
    = notifications w + n /\
    a <= retry (options crawler) + 1 /\
    n <= a <= n + 1 /\
    (forall response,
       fst (Http.request env crawler url method body httpHeaders w)
       = Ok response ->
       a = n + 1).
Proof.
  intros env crawler url method body httpHeaders w.
  rewrite request_prepare. unfold bind.
  destruct (prepare_trace crawler url method body httpHeaders w)
    as (j & hooked & Hw & _).
  destruct (preparation_events crawler j hooked RProxy) as (Hpa & Hpn & _).
  set (pre := sequential_resolution crawler (take j resolver_order)
              ++ (if hooked then [BeforeRequest] else [])) in *.
  destruct (prepare crawler url method body httpHeaders w) as [[config|e] w1];
    cbn [snd] in Hw; subst w1.
  - destruct (pRetry_accounting (Http.run_request env config) is_attempt
                (default "" (cfg_method config)) (cfg_url config)
                (fun _ => eq_refl) (run_request_one env config)
                (retry (options crawler)) [] 1 (emits pre w))
      as (evs & Htr & _ & Hbound & Hres); [constructor|].
    change (notify_failed (default "" (cfg_method config)) (cfg_url config))
      with (request_failed config) in Htr, Hres.
    unfold pRetry.
    exists (count is_attempt evs), (count is_notification evs).
    unfold attempts, notifications. rewrite Htr. cbn [trace emits].
    rewrite !count_app, Hpa, Hpn.
    destruct (fst (pRetry_from _ _ _ _ _ _)) as [x|e].
    + repeat split; try lia.
    + repeat split; try lia; try discriminate;
        destruct (plain e); lia.
  - exists 0, 0. cbn [fst snd].
    rewrite attempts_emits, notifications_emits, Hpa, Hpn.
    repeat split; try lia. discriminate.
Qed.

(** ** Download attempts and their retry loop *)







Lemma count_nil p : count p [] = 0.
Proof. reflexivity. Qed.

Lemma count_none p (evs : list Event) :
  Forall (fun e => p e = false) evs -> count p evs = 0.
Proof.
  induction 1 as [|e evs He _ IH]; [reflexivity|].
  rewrite count_cons, He, IH. reflexivity.
Qed.


(** ** A request that recovers *)

Lemma pRetry_recovers env config response :
  forall k retriesLeft errors attemptNumber w,
    cancelled w = None ->
    k <= retriesLeft ->
    (forall i, i < k ->
               transient (network env (attempts w + i) config) = true) ->
    network env (attempts w + k) config = Responds response ->
    pRetry_from (Http.run_request env config) (request_failed config)
      errors attemptNumber retriesLeft w
    = (Ok (Http.createResponse response),
       emits (failed_rounds config attemptNumber retriesLeft k
              ++ [Attempt config]) w).
Proof.
  induction k as [|k IH]; intros retriesLeft errors attemptNumber w Hc Hk
    Hfail Hok; rewrite pRetry_from_unfold.
  - unfold Http.run_request, bind, Http.axios_request. cbn [emit cancelled].
    rewrite Hc. rewrite Nat.add_0_r in Hok. rewrite Hok. reflexivity.
  - destruct (run_request_transient env config w Hc) as (e & He & Hrun).
    { specialize (Hfail 0). rewrite Nat.add_0_r in Hfail. apply Hfail. lia. }
    rewrite Hrun.
    destruct retriesLeft as [|n]; [lia|].
    assert (Hloop :
      pRetry_from (Http.run_request env config) (request_failed config)
        (errors ++ [e]) (S attemptNumber) n
        (emits [Attempt config;
                Log (AttemptFailed (default "" (cfg_method config))
                       (cfg_url config) attemptNumber (S n))] w)
      = (Ok (Http.createResponse response),
         emits (failed_rounds config (S attemptNumber) n k
                ++ [Attempt config])
           (emits [Attempt config;
                   Log (AttemptFailed (default "" (cfg_method config))
                          (cfg_url config) attemptNumber (S n))] w))).
    { apply IH.
      - exact Hc.
      - lia.
      - intros i Hi. rewrite attempts_emits, !count_cons, count_nil.
        cbn [is_attempt]. replace (attempts w + (1 + (0 + 0)) + i)
          with (attempts w + S i) by lia.
        apply Hfail. lia.
      - rewrite attempts_emits, !count_cons, count_nil. cbn [is_attempt].
        replace (attempts w + (1 + (0 + 0)) + k) with (attempts w + S k)
          by lia.
        exact Hok. }
    destruct e; try discriminate; cbn;
      rewrite emit_emits, emits_emits; cbn [app];
      rewrite Hloop, emits_emits; reflexivity.
Qed.

Lemma failed_rounds_counts config k :
  forall a r,
    count is_attempt (failed_rounds config a r k) = k /\
    count is_notification (failed_rounds config a r k) = k.
Proof.
  induction k as [|k IH]; intros a r; [split; reflexivity|].
  destruct (IH (S a) (pred r)) as [Ha Hn].
  cbn [failed_rounds]. rewrite !count_cons, Ha, Hn.
  cbn [is_attempt is_notification]. split; lia.
Qed.

Lemma failed_rounds_attempts config k :
  forall a r,
    filter (fun e => is_attempt e = true)
      (failed_rounds config a r k ++ [Attempt config])
    = replicate (S k) (Attempt config).
Proof.
  induction k as [|k IH]; intros a r; [reflexivity|].
  cbn [failed_rounds app]. rewrite !filter_cons.
  cbn [is_attempt]. rewrite decide_True by reflexivity.
  rewrite decide_False by discriminate.
  rewrite IH. reflexivity.
Qed.

(** X5.  A request whose preparation succeeded, whose token is not
    tripped and whose network call fails [k] times (an error or a
    timeout) and then answers, with [k] within the retry budget, resolves
    with the response object of that answer after exactly [k + 1] network
    calls, all with the same config, and exactly [k] failure
    notifications. *)
Theorem request_recovers :
  forall env crawler url method body httpHeaders w config response k,
    cancelled w = None ->
    fst (prepare crawler url method body httpHeaders w) = Ok config ->
    k <= retry (options crawler) ->
    (forall i, i < k ->
               transient (network env (attempts w + i) config) = true) ->
    network env (attempts w + k) config = Responds response ->
    let result := Http.request env crawler url method body httpHeaders w in
    fst result = Ok (Http.createResponse response) /\
    attempts (snd result) = attempts w + (k + 1) /\
    notifications (snd result) = notifications w + k /\
    filter (fun e => is_attempt e = true) (new_events w (snd result))
    = replicate (k + 1) (Attempt config).
Proof.
  intros env crawler url method body httpHeaders w config response k
    Hc Hprep Hk Hfail Hok result. subst result.
  destruct (prepare_trace crawler url method body httpHeaders w)
    as (j & hooked & Hw & Hfull).
  destruct (Hfull config Hprep) as [-> ->]. clear Hfull.
  destruct (preparation_events crawler 4
              (is_configured (beforeRequest (provider crawler))) RProxy)
    as (Hpa & Hpn & _).
  set (pre := sequential_resolution crawler (take 4 resolver_order) ++
              (if is_configured (beforeRequest (provider crawler))
               then [BeforeRequest] else [])) in *.
  assert (Hreq :
    Http.request env crawler url method body httpHeaders w
    = (Ok (Http.createResponse response),
       emits (pre ++ failed_rounds config 1 (retry (options crawler)) k
              ++ [Attempt config]) w)).
  { rewrite request_prepare. unfold bind.
    destruct (prepare crawler url method body httpHeaders w) as [res w1].
    cbn [fst snd] in Hprep, Hw. subst res w1.
    unfold pRetry.
    rewrite (pRetry_recovers env config response k); auto.
    - rewrite emits_emits. reflexivity.
    - intros i Hi. rewrite attempts_emits, Hpa, Nat.add_0_r. auto.
    - rewrite attempts_emits, Hpa, Nat.add_0_r. exact Hok. }
  rewrite Hreq. cbn [fst snd].
  destruct (failed_rounds_counts config k 1 (retry (options crawler)))
    as [Ha Hn].
  rewrite attempts_emits, notifications_emits, new_events_emits, !count_app.
  rewrite Hpa, Hpn, Ha, Hn, !count_cons, !count_nil.
  cbn [is_attempt is_notification].
  repeat split; try lia.
  rewrite !filter_app.
  assert (Hnone : filter (fun e => is_attempt e = true) pre = []).
  { apply length_zero_iff_nil. exact Hpa. }
  rewrite Hnone, <- filter_app, Nat.add_1_r. cbn [app].
  apply failed_rounds_attempts.
Qed.

(** X5 on the sample network that resets two calls: the third one
    answers. *)
Lemma request_recovers_witness :
  fst (Http.request Sample.flaky (Sample.crawler 3) Sample.page None
         BUndefined None Sample.running)
  = Ok (Http.createResponse Sample.answer) /\
  attempts (snd (Http.request Sample.flaky (Sample.crawler 3) Sample.page None
                   BUndefined None Sample.running)) = 3 /\
  notifications (snd (Http.request Sample.flaky (Sample.crawler 3)
                        Sample.page None BUndefined None Sample.running)) = 2.
Proof.
  destruct (request_recovers Sample.flaky (Sample.crawler 3) Sample.page None
              BUndefined None Sample.running Sample.config Sample.answer 2)
    as (Hres & Ha & Hn & _).
  - reflexivity.
  - vm_compute. reflexivity.
  - cbn. lia.
  - intros [|[|i]] Hi; [reflexivity | reflexivity | lia].
  - reflexivity.
  - split; [exact Hres|]. split; [exact Ha | exact Hn].
Defined.

(** ** Requests that end before the network *)

(** X6.  When a configured resolver rejects and the resolvers before it
    in the array answer, the request rejects with that error at once:
    the resolvers after it are not invoked, the [beforeRequest] hook is
    not called, no network call is made and nothing is retried or
    logged.  The events of the request are the resolvers up to the
    failing one, one after the other. *)
Theorem resolver_rejection_ends_request :
  forall env crawler url method body httpHeaders w k e,
    rejection_of crawler url (default "GET" method) body w k = Some e ->
    (forall k', position k' < position k ->
                rejection_of crawler url (default "GET" method) body w k'
                = None) ->
    fst (Http.request env crawler url method body httpHeaders w) = Throw e /\
    new_events w (snd (Http.request env crawler url method body httpHeaders w))
    = sequential_resolution crawler (take (S (position k)) resolver_order) /\
    attempts (snd (Http.request env crawler url method body httpHeaders w))
    = attempts w /\
    (forall k', position k < position k' ->
                invocations k'
                  (snd (Http.request env crawler url method body httpHeaders w))
                = invocations k' w).
Proof.
  intros env crawler url method body httpHeaders w k e Hk Hbefore.
  assert (Hreq :
    Http.request env crawler url method body httpHeaders w
    = (Throw e,
       emits (sequential_resolution crawler
                (take (S (position k)) resolver_order)) w)).
  { rewrite request_prepare.
    pose proof (Hbefore RProxy) as Hp. pose proof (Hbefore RUserAgent) as Hu.
    pose proof (Hbefore RHeaders) as Hh. clear Hbefore.
    unfold prepare, Http.resolve, Http.call_resolve, Http.await_promise,
      sequential_resolution, resolver_order, configured.
    unfold bind, ret. cbv beta iota zeta. cbn [source settles].
    unfold rejection_of, answer_of in Hk, Hp, Hu, Hh.
    destruct k; cbn [position] in Hp, Hu, Hh;
      try specialize (Hp ltac:(lia)); try specialize (Hu ltac:(lia));
      try specialize (Hh ltac:(lia));
      (destruct (proxy crawler) as [rp|];
       [destruct (rp _ _ _ _) as [vp|ep]|]);
      cbn [failure_of] in *; try discriminate;
      try (injection Hk as ->; f_equal; close_trace);
      (destruct (userAgent crawler) as [ru|];
       [rewrite ?invocations_emit_other by reflexivity;
        destruct (ru _ _ _ _) as [vu|eu]|]);
      cbn [failure_of] in *; try discriminate;
      try (injection Hk as ->; f_equal; close_trace);
      (destruct (headers crawler) as [rh|];
       [rewrite ?invocations_emit_other by reflexivity;
        destruct (rh _ _ _ _) as [vh|eh]|]);
      cbn [failure_of] in *; try discriminate;
      try (injection Hk as ->; f_equal; close_trace);
      (destruct (auth crawler) as [ra|];
       [rewrite ?invocations_emit_other by reflexivity;
        destruct (ra _ _ _ _) as [va|ea]|]);
      cbn [failure_of] in *; try discriminate;
      try (injection Hk as ->; f_equal; close_trace). }
  rewrite Hreq. cbn [fst snd].
  rewrite new_events_emits.
  split; [reflexivity|]. split; [reflexivity|].
  split.
  - rewrite attempts_emits.
    destruct (preparation_events crawler (S (position k)) false RProxy)
      as (Ha & _).
    rewrite app_nil_r in Ha. rewrite Ha. lia.
  - intros k' Hlater. rewrite invocations_emits.
    unfold sequential_resolution, resolver_order, configured.
    destruct k, k'; cbn [position] in Hlater; try lia;
      cbn [firstn flat_map];
      destruct (proxy crawler), (userAgent crawler), (headers crawler);
      cbn [is_configured app];
      match goal with
      | |- ?n + count ?p ?l = ?n =>
          replace (count p l) with 0 by (vm_compute; reflexivity)
      end; lia.
Qed.

(** X6 on the crawler whose user-agent list is exhausted: the headers
    resolver behind it is never invoked. *)
Lemma resolver_rejection_ends_request_witness :
  fst (Http.request Sample.unreachable Sample.out_of_agents Sample.page None
         BUndefined None Sample.running)
  = Throw (Error "no user agent left") /\
  trace (snd (Http.request Sample.unreachable Sample.out_of_agents Sample.page
                None BUndefined None Sample.running))
  = [ResolveStart RProxy; ResolveEnd RProxy;
     ResolveStart RUserAgent; ResolveEnd RUserAgent] /\
  invocations RHeaders
    (snd (Http.request Sample.unreachable Sample.out_of_agents Sample.page
            None BUndefined None Sample.running)) = 0.
Proof.
  destruct (resolver_rejection_ends_request Sample.unreachable
              Sample.out_of_agents Sample.page None BUndefined None
              Sample.running RUserAgent (Error "no user agent left"))
    as (Hres & Hev & _ & Hlater).
  - reflexivity.
  - intros [] H; cbn in H; try lia. reflexivity.
  - split; [exact Hres|]. split; [exact Hev|].
    apply (Hlater RHeaders). cbn. lia.
Defined.

(** The config a preparation hands to the hook, or uses as it is
    without one. *)
Lemma prepare_config crawler url method body httpHeaders w :
  (forall k, rejection_of crawler url (default "GET" method) body w k = None) ->
  exists _proxy _userAgent _headers _auth,
    answer_of RProxy (proxy crawler) None url (default "GET" method) body w
    = Ok _proxy /\
    answer_of RUserAgent (userAgent crawler) None url (default "GET" method)
      body w = Ok _userAgent /\
    answer_of RHeaders (headers crawler) (Some ∅) url (default "GET" method)
      body w = Ok _headers /\
    answer_of RAuth (auth crawler) None url (default "GET" method) body w
    = Ok _auth /\
    let built :=
      {| cfg_url := url;
         cfg_method := Some (default "GET" method);
         cfg_proxy := _proxy;
         cfg_timeout := timeout (options crawler);
         cfg_data := body;
         cfg_auth := _auth;
         cfg_headers :=
           Http.merge_headers crawler url httpHeaders _headers _userAgent |} in
    prepare crawler url method body httpHeaders w
    = match beforeRequest (provider crawler) with
      | Some hook =>
          (hook built,
           emits (sequential_resolution crawler resolver_order
                  ++ [BeforeRequest]) w)
      | None => (Ok built, emits (sequential_resolution crawler resolver_order) w)
      end.
Proof.
  intros Hall.
  pose proof (Hall RProxy) as Hp. pose proof (Hall RUserAgent) as Hu.
  pose proof (Hall RHeaders) as Hh. pose proof (Hall RAuth) as Ha.
  clear Hall.
  unfold prepare, Http.resolve, Http.call_resolve, Http.await_promise,
    sequential_resolution, resolver_order, configured.
  unfold bind, ret, tell. cbv beta iota zeta. cbn [source settles].
  unfold rejection_of, answer_of in *.
  (destruct (proxy crawler) as [rp|];
   [destruct (rp _ _ _ _) as [vp|ep]|]);
    cbn [failure_of] in *; try discriminate;
  (destruct (userAgent crawler) as [ru|];
   [rewrite ?invocations_emit_other by reflexivity;
    destruct (ru _ _ _ _) as [vu|eu]|]);
    cbn [failure_of] in *; try discriminate;
  (destruct (headers crawler) as [rh|];
   [rewrite ?invocations_emit_other by reflexivity;
    destruct (rh _ _ _ _) as [vh|eh]|]);
    cbn [failure_of] in *; try discriminate;
  (destruct (auth crawler) as [ra|];
   [rewrite ?invocations_emit_other by reflexivity;
    destruct (ra _ _ _ _) as [va|ea]|]);
    cbn [failure_of] in *; try discriminate;
  do 4 eexists; (do 4 (split; [reflexivity|]));
  (destruct (beforeRequest (provider crawler)) as [hook|];
   f_equal; close_trace).
Qed.

(** X7.  When every resolver answers, the [beforeRequest] hook is called
    once, after the resolvers, with the config built from the arguments:
    the url, the method (GET when none is given), the body and the
    timeout of the options.  If the hook rejects, the request rejects
    with that error and no network call is made.  If it returns, every
    network call of the request is made with the config as the hook left
    it. *)
Theorem hook_decides_what_is_sent :
  forall env crawler url method body httpHeaders w hook,
    beforeRequest (provider crawler) = Some hook ->
    (forall k,
       rejection_of crawler url (default "GET" method) body w k = None) ->
    let result := Http.request env crawler url method body httpHeaders w in
    exists built,
      cfg_url built = url /\
      cfg_method built = Some (default "GET" method) /\
      cfg_data built = body /\
      cfg_timeout built = timeout (options crawler) /\
      count is_hook (new_events w (snd result)) = 1 /\
      match hook built with
      | Ok config =>
          1 <= count is_attempt (new_events w (snd result)) /\
          (forall c, In (Attempt c) (new_events w (snd result)) -> c = config)
      | Throw e =>
          fst result = Throw e /\
          attempts (snd result) = attempts w /\
          new_events w (snd result)
          = sequential_resolution crawler resolver_order ++ [BeforeRequest]
      end.
Proof.
  intros env crawler url method body httpHeaders w hook Hhook Hall result.
  subst result.
  destruct (prepare_config crawler url method body httpHeaders w Hall)
    as (_proxy & _userAgent & _headers & _auth & _ & _ & _ & _ & Hprep).
  cbv zeta in Hprep. rewrite Hhook in Hprep.
  match type of Hprep with
  | _ = (hook ?b, _) => exists b
  end.
  split; [|split; [|split; [|split]]]; [reflexivity ..|].
  destruct (preparation_events crawler 4 true RProxy) as (Hpa & Hpn & _).
  change (take 4 resolver_order) with resolver_order in Hpa, Hpn.
  assert (Hhooks : count is_hook
                     (sequential_resolution crawler resolver_order
                      ++ [BeforeRequest]) = 1).
  { unfold sequential_resolution, resolver_order, configured.
    destruct (proxy crawler), (userAgent crawler), (headers crawler),
      (auth crawler); vm_compute; reflexivity. }
  match type of Hprep with
  | _ = (hook ?b, _) => destruct (hook b) as [config|e] eqn:Hb
  end.
  - rewrite request_prepare. unfold bind. rewrite Hprep.
    destruct (pRetry_request_events env config (retry (options crawler))
                [] 1 (emits (sequential_resolution crawler resolver_order
                             ++ [BeforeRequest]) w))
      as (loop & Htr & Hloop & Hone).
    unfold pRetry. cbn [trace emits] in Htr. rewrite <- app_assoc in Htr.
    rewrite (new_events_trace _ _ _ Htr).
    assert (Hnh : count is_hook loop = 0).
    { apply count_none. eapply Forall_impl; [exact Hloop|].
      intros x [->|Hx]; [reflexivity|].
      apply notification_is_log in Hx as (? & ? & ? & ? & ->). reflexivity. }
    rewrite !count_app in *. rewrite Hnh.
    split; [lia|]. split; [lia|].
    intros c Hin. apply in_app_or in Hin. destruct Hin as [Hin|Hin].
    + rewrite <- count_app in Hpa.
      apply (count_zero_In _ _ _ Hpa) in Hin. discriminate.
    + apply (loop_events_one_config _ _ _ Hloop Hin).
  - rewrite request_prepare. unfold bind. rewrite Hprep. cbn [fst snd].
    rewrite new_events_emits, attempts_emits, Hhooks, Hpa.
    repeat split; try reflexivity; lia.
Qed.

(** X7 on the provider that sends requests to a mirror, and on the one
    whose hook refuses. *)
Lemma hook_decides_what_is_sent_witness :
  (forall c,
     In (Attempt c)
       (new_events Sample.running
          (snd (Http.request Sample.unreachable Sample.mirrored Sample.page
                  None BUndefined None Sample.running))) ->
     cfg_url c = Sample.mirror) /\
  fst (Http.request Sample.unreachable Sample.refusing Sample.page None
         BUndefined None Sample.running) = Throw (Error "not allowed") /\
  attempts (snd (Http.request Sample.unreachable Sample.refusing Sample.page
                   None BUndefined None Sample.running)) = 0.
Proof.
  split.
  - destruct (hook_decides_what_is_sent Sample.unreachable Sample.mirrored
                Sample.page None BUndefined None Sample.running _ eq_refl)
      as (built & _ & _ & _ & _ & _ & Hsent).
    + intros []; reflexivity.
    + cbn in Hsent. destruct Hsent as [_ Hsent].
      intros c Hin. rewrite (Hsent c Hin). reflexivity.
  - destruct (hook_decides_what_is_sent Sample.unreachable Sample.refusing
                Sample.page None BUndefined None Sample.running _ eq_refl)
      as (built & _ & _ & _ & _ & _ & Hres & Ha & _).
    + intros []; reflexivity.
    + split; [exact Hres | exact Ha].
Defined.

(** ** More on the callbacks *)

(** X8.  [follow] changes the world exactly when the crawler is active
    and the argument is not empty: with a stopped crawler, a missing
    argument or the empty string it does nothing at all. *)
Theorem follow_acts_iff_active_and_given :
  forall (self : Http.Response) (nextUrl : option Url) (w : World),
    Response.follow self nextUrl w = w <->
    (active w = false \/ truthy_url nextUrl = false).
Proof.
  intros self nextUrl w. unfold Response.follow. split.
  - destruct (active w); [|auto].
    destruct (truthy_url nextUrl) eqn:Ht; [|auto].
    cbn [andb]. intros H. exfalso.
    apply (f_equal (fun x => length (scheduler x))) in H.
    destruct nextUrl as [[s|u]|]; [| |discriminate];
      unfold set_scheduler, Scheduler.push in H; cbn [scheduler] in H;
      rewrite length_app in H; cbn in H; lia.
  - intros [-> | ->]; [reflexivity|]. rewrite andb_false_r. reflexivity.
Qed.

(** X9.  [retry] replays the request of the response: each call appends
    one request task with the url, the body and the headers of the
    config of the response, and with its method, GET when the config has
    none or an empty one.  Nothing removes duplicates: [n] calls append
    [n] equal tasks behind the tasks already queued. *)
Theorem retry_appends_replays :
  forall (self : Http.Response) (n : nat) (w : World),
    let config := res_config (Http.response self) in
    let task :=
      {| task_type := TRequest;
         task_method := Some (match cfg_method config with
                              | Some "" | None => "GET"
                              | Some m => m
                              end);
         task_url := cfg_url config;
         task_body := cfg_data config;
         task_headers := Some (cfg_headers config) |} in
    Nat.iter n (Response.retry self) w
    = set_scheduler (scheduler w ++ replicate n task) w.
Proof.
  intros self n w config task.
  induction n as [|n IH].
  - cbn. rewrite app_nil_r. destruct w. reflexivity.
  - cbn [Nat.iter nat_rect]. unfold Nat.iter in IH. rewrite IH.
    unfold Response.retry, set_scheduler, Scheduler.push. cbn [scheduler].
    fold config.
    replace (or_string (cfg_method config) "GET")
      with (match cfg_method config with
            | Some "" | None => "GET"
            | Some m => m
            end).
    2:{ unfold or_string. destruct (cfg_method config) as [[|a s]|];
          reflexivity. }
    fold task. rewrite <- app_assoc.
    replace (replicate n task ++ [task]) with (replicate (S n) task).
    2:{ clear. induction n as [|n IH]; [reflexivity|].
        cbn [replicate app]. f_equal. exact IH. }
    reflexivity.
Qed.

(** ** What decides a download attempt *)

(** X10.  A download attempt is decided by the first thing that happens
    to it, calls of [cancel] apart: an error of either stream rejects it
    with that error, the [finish] of the write stream resolves it, the
    timer rejects it with a timeout, as does nothing happening at all.
    Whatever comes later changes nothing. *)
Theorem download_attempt_first_event_decides :
  forall env url opts w,
    fst (Http.run_download env url opts w)
    = first_event_outcome (streams env (download_attempts w) url opts).
Proof.
  intros env url opts w. rewrite run_download_outcome.
  unfold first_event_outcome, stream_outcome.
  rewrite <- fold_skips_cancel.
  destruct (filter _ _) as [|ev evs] eqn:Hf; [reflexivity|].
  cbn [foldl].
  destruct ev; try (erewrite fold_outer_settled; reflexivity).
  exfalso.
  assert (Hin : CancelCalled ∈
                filter (fun ev => is_cancel_call ev = false)
                  (streams env (download_attempts w) url opts)).
  { rewrite Hf. left. }
  apply list_elem_of_filter in Hin. destruct Hin as [Hin _]. discriminate.
Qed.

(** ** The selector parses once *)

Lemma selectors_parsed {Doc Found : Type} (load : string -> Doc)
    (apply : Doc -> string -> Found) response sels :
  forall (s : Selector.State) doc,
    Selector.select s = Some doc ->
    Selector.selectors load apply response sels s
    = (map (apply doc) sels, s).
Proof.
  induction sels as [|sel sels IH]; intros s doc Hs; [reflexivity|].
  cbn [Selector.selectors]. unfold Selector.selector. rewrite Hs.
  rewrite (IH s doc Hs). reflexivity.
Qed.

(** X11.  However often the response object is called with a selector,
    the body of the response is parsed at most once, by the first call;
    every call answers with what the parsed body gives for its selector,
    in the order of the calls. *)
Theorem selector_parses_once :
  forall (Doc Found : Type) (load : string -> Doc)
         (apply : Doc -> string -> Found) (response : AxiosResponse)
         (sels : list string),
    fst (Selector.selectors load apply response sels Selector.fresh)
    = map (apply (load (res_data response))) sels /\
    Selector.loads
      (snd (Selector.selectors load apply response sels Selector.fresh))
    = (match sels with [] => 0 | _ :: _ => 1 end) /\
    Selector.select
      (snd (Selector.selectors load apply response sels Selector.fresh))
    = (match sels with
       | [] => None
       | _ :: _ => Some (load (res_data response))
       end).
Proof.
  intros Doc Found load apply response [|sel sels];
    [repeat split; reflexivity|].
  assert (H : Selector.selectors load apply response (sel :: sels)
                 Selector.fresh
               = (map (apply (load (res_data response))) (sel :: sels),
                  {| Selector.select := Some (load (res_data response));
                     Selector.loads := 1 |})).
  { cbn [Selector.selectors]. unfold Selector.selector.
    cbn [Selector.select Selector.fresh].
    erewrite selectors_parsed by reflexivity. reflexivity. }
  rewrite H. repeat split; reflexivity.
Qed.

(** ** The example provider *)




(** ** Headers of replayed and followed requests *)

(** X13.  Sending a request again with the headers it was sent with as
    the caller's headers, as the task of [retry] does, gives the same
    headers again when the resolvers answer the same. *)
Theorem replayed_headers_are_the_same :
  forall crawler url httpHeaders _headers _userAgent,
    Http.merge_headers crawler url
      (Some (Http.merge_headers crawler url httpHeaders _headers _userAgent))
      _headers _userAgent
    = Http.merge_headers crawler url httpHeaders _headers _userAgent.
Proof.
  intros crawler url httpHeaders _headers _userAgent.
  apply map_eq. intros key. unfold Http.merge_headers.
  cbn [or_empty]. rewrite !lookup_spread.
  repeat match goal with
         | |- context [match ?m !! key with _ => _ end] =>
             destruct (m !! key) eqn:?
         end; try reflexivity; congruence.
Qed.

(** X14.  The task [follow] pushes, once requested with its own url,
    method, body and headers, is sent with the url of the page it was
    found on as [Reference], not with its own url (the default of
    [request]) and whatever the default headers of the provider say,
    unless the caller of [follow] or the headers resolver set a
    [Reference] themselves. *)
Theorem followed_request_refers_to_its_page :
  forall crawler (self : Http.Response) (nextUrl : Url) (w : World)
         (_headers : option HTTPHeaders) (_userAgent : option string),
    active w = true ->
    truthy_url (Some nextUrl) = true ->
    caller_headers nextUrl !! "Reference" = None ->
    or_empty _headers !! "Reference" = None ->
    exists task,
      last (scheduler (Response.follow self (Some nextUrl) w)) = Some task /\
      Http.merge_headers crawler (task_url task) (task_headers task)
        _headers _userAgent !! "Reference"
      = Some (HStr (cfg_url (res_config (Http.response self)))).
Proof.
  intros crawler self nextUrl w _headers _userAgent Ha Ht Hcaller Hres.
  unfold Response.follow. rewrite Ha, Ht. cbn [andb].
  assert (Hua : forall m : HTTPHeaders,
            m = (if truthy_string _userAgent
                 then {[ "User-Agent" := HStr (default "" _userAgent) ]}
                 else ∅) ->
            m !! "Reference" = None).
  { intros m ->. destruct (truthy_string _userAgent); reflexivity. }
  destruct nextUrl as [s|u]; eexists;
    (split; [unfold set_scheduler, Scheduler.push; cbn [scheduler];
             apply last_snoc|]);
    cbn [task_url task_headers]; unfold Http.merge_headers;
    rewrite lookup_spread, (Hua _ eq_refl), lookup_spread, Hres,
      lookup_spread; cbn [or_empty].
  - reflexivity.
  - cbn [caller_headers] in Hcaller. rewrite lookup_spread, Hcaller.
    reflexivity.
Qed.

(** X14 on the sample response: following the second page. *)
Lemma followed_request_refers_to_its_page_witness :
  exists task,
    last (scheduler (Response.follow (Http.createResponse Sample.answer)
                       (Some (UrlString "https://example.org/page/2"))
                       Sample.running)) = Some task /\
    Http.merge_headers (Sample.crawler 0) (task_url task) (task_headers task)
      None (Some "bot/1") !! "Reference" = Some (HStr Sample.page).
Proof.
  apply (followed_request_refers_to_its_page (Sample.crawler 0)
           (Http.createResponse Sample.answer)
           (UrlString "https://example.org/page/2") Sample.running
           None (Some "bot/1")); reflexivity.
Defined.
